(** * Order processing service (exam.py): model and verified properties

    A shallow embedding of [OrderProcessingService] and the classes it relies
    on.  Python objects mutated in place become explicit state; a raised
    exception becomes the [Raise] outcome of a small state-and-exception
    monad; the abstract collaborators [DatabaseService] and [APIClient] become
    type classes over an arbitrary environment state, so that every theorem
    holds for all implementations (and test doubles) of those interfaces. *)

From Stdlib Require Import ZArith QArith Ascii DecimalString DecimalPos DecimalZ.
From stdpp Require Import base functions strings gmap list.

Open Scope Z_scope.

(** ** Python values and exceptions *)

(** The exception classes the handlers of exam.py tell apart.  All of them
    derive from [Exception]; [TypeError] is what comparing [None] with a number
    raises, and [OtherException] stands for any further [Exception] subclass
    (a [RuntimeError], a [ValueError], ...) that no handler but the outermost
    [except Exception] names. *)
Inductive exn : Type :=
| IOError
| APIException
| DatabaseException
| TypeError
| OtherException.

Inductive outcome (A : Type) : Type :=
| Return (a : A)
| Raise (e : exn).
Arguments Return {A} a.
Arguments Raise {A} e.

(** [except IOError], [except APIException] and [except DatabaseException]
    as predicates on the raised class; [except Exception] catches them all. *)
Definition is_IOError (e : exn) : bool :=
  match e with IOError => true | _ => false end.
Definition is_APIException (e : exn) : bool :=
  match e with APIException => true | _ => false end.
Definition is_DatabaseException (e : exn) : bool :=
  match e with DatabaseException => true | _ => false end.

(** Numbers.  An order amount and a response payload are Python numbers: an
    [int] or a [float].  Every [int] and every finite [float] is a rational;
    a [float] may also be [inf], [-inf] or [nan]. *)
Inductive num : Type :=
| Finite (q : Q)
| Infinity (negative : bool)
| NaN.

Declare Scope num_scope.
Delimit Scope num_scope with num.
Bind Scope num_scope with num.

(** Integer literals ([50], [100], [150], [200]) as numbers. *)
Definition num_of_Z (z : Z) : num := Finite (inject_Z z).
Definition Z_of_num (n : num) : option Z :=
  match n with
  | Finite (Qmake z 1) => Some z
  | _ => None
  end.
Number Notation num num_of_Z Z_of_num : num_scope.

(** Python's [a < b] and [a <= b] on numbers: exact on finite values,
    [-inf] below and [inf] above them, and [False] whenever an operand is
    [nan]. *)
Definition num_lt (a b : num) : bool :=
  match a, b with
  | Finite x, Finite y => negb (Qle_bool y x)
  | Finite _, Infinity negative => negb negative
  | Infinity negative, Finite _ => negative
  | Infinity n1, Infinity n2 => n1 && negb n2
  | NaN, _ | _, NaN => false
  end.

Definition num_le (a b : num) : bool :=
  match a, b with
  | Finite x, Finite y => Qle_bool x y
  | Finite _, Infinity negative => negb negative
  | Infinity negative, Finite _ => negative
  | Infinity n1, Infinity n2 => n1 || negb n2
  | NaN, _ | _, NaN => false
  end.

(** [a > b] and [a >= b] *)
Definition num_gt (a b : num) : bool := num_lt b a.
Definition num_ge (a b : num) : bool := num_le b a.

(** The order of the extended rationals, in which [nan] is related to
    nothing: what the comparisons above decide. *)
Definition lt_num (a b : num) : Prop :=
  match a, b with
  | Finite x, Finite y => (x < y)%Q
  | Finite _, Infinity false => True
  | Infinity true, Finite _ => True
  | Infinity true, Infinity false => True
  | _, _ => False
  end.

Definition le_num (a b : num) : Prop :=
  match a, b with
  | Finite x, Finite y => (x <= y)%Q
  | Finite _, Infinity false => True
  | Infinity true, Finite _ => True
  | Infinity true, Infinity _ => True
  | Infinity false, Infinity false => True
  | _, _ => False
  end.

Notation "a < b" := (lt_num a b) : num_scope.
Notation "a <= b" := (le_num a b) : num_scope.

Definition lt_num_dec (a b : num) : Decision (a < b)%num.
Proof.
  unfold Decision. destruct a as [x | [] |], b as [y | [] |]; simpl;
    try solve [left; exact I]; try solve [right; intros []].
  destruct (Qlt_le_dec x y) as [H | H]; [left; exact H | right].
  apply Qle_not_lt, H.
Defined.

#[export] Instance lt_num_decision (a b : num) : Decision (a < b)%num :=
  lt_num_dec a b.

(** [str(n)] for an [int], [str(b)] for a [bool] and [s.lower()]. *)
Definition str_int (z : Z) : string := NilZero.string_of_int (Z.to_int z).
Definition str_bool (b : bool) : string := if b then "True" else "False".

Definition lower_ascii (c : ascii) : ascii :=
  let n := nat_of_ascii c in
  if ((65 <=? n) && (n <=? 90))%nat then ascii_of_nat (n + 32) else c.

Fixpoint lower (s : string) : string :=
  match s with
  | EmptyString => EmptyString
  | String c s' => String (lower_ascii c) (lower s')
  end.

(** ** Data model *)

Module Order.
(** [class Order]: four constructor arguments and two mutable fields. *)
Record t : Type := mk {
  id : Z;
  type : string;
  amount : num;
  flag : bool;
  status : string;
  priority : string
}.

(** [Order.__init__] *)
Definition init (id : Z) (type : string) (amount : num) (flag : bool) : t :=
  mk id type amount flag "new" "low".

(** [order.status = s] and [order.priority = p] *)
Definition set_status (s : string) (o : t) : t :=
  mk (id o) (type o) (amount o) (flag o) s (priority o).
Definition set_priority (p : string) (o : t) : t :=
  mk (id o) (type o) (amount o) (flag o) (status o) p.
End Order.

Module APIResponse.
(** [class APIResponse]: [data] is declared [Any]; the code only compares it
    with numbers, so it is a number or absent ([None], or any value for which
    the comparison raises [TypeError]). *)
Record t : Type := mk {
  status : string;
  data : option num
}.
End APIResponse.

(** What a fetch hands back: a Python list of [Order] objects.  Objects have
    identity, and one object may stand at several positions of a list; the
    list is therefore the sequence of the identities of its elements, given
    together with the state every object has when the list is returned. *)
Record Fetched : Type := mkFetched {
  objects : nat -> Order.t;
  listed : list nat
}.

(** A list of objects as a reader sees it: the state of the object at each
    position. *)
Definition as_list (objs : nat -> Order.t) (refs : list nat) : list Order.t :=
  map objs refs.

Definition fetched_orders (f : Fetched) : list Order.t :=
  as_list (objects f) (listed f).

(** A value handed to [csv.writer.writerow], and a row of them. *)
Inductive cell : Type :=
| CInt (z : Z)
| CNum (n : num)
| CStr (s : string).

Definition row : Type := list cell.

(** ** Collaborators *)

(** [class DatabaseService(ABC)].  An implementation is any pair of functions
    over its own state [W]; each call returns or raises, and may change [W].
    The service hands its collaborators field values ([order.id],
    [order.status], [order.priority]), never the order object, so a call
    leaves the order being processed as it is. *)
Class DatabaseService (W : Type) : Type := {
  get_orders_by_user : Z -> W -> outcome Fetched * W;
  update_order_status : Z -> string -> string -> W -> outcome bool * W
}.

(** [class APIClient(ABC)] *)
Class APIClient (W : Type) : Type := {
  call_api : Z -> W -> outcome APIResponse.t * W
}.

(** File operations the export performs, and the part of the Python runtime
    the service calls directly: the clock behind [int(time.time())], and
    whether a given file operation fails in the current environment. *)
Inductive fsop : Type :=
| OpOpen (name : string)
| OpWrite (name : string) (r : row)
| OpClose (name : string).

Class Runtime (W : Type) : Type := {
  time_time : W -> Z * W;
  io_fault : fsop -> W -> option exn
}.

(** Calls made on the two collaborators, recorded in the order they happen. *)
Inductive call : Type :=
| CallGetOrders (user_id : Z)
| CallUpdate (order_id : Z) (status priority : string)
| CallApi (order_id : Z).

(** The world outside the order objects: the collaborators' state, the files
    on disk (name to rows written), and the record of collaborator calls. *)
Record World (W : Type) : Type := mkWorld {
  ext : W;
  files : gmap string (list row);
  calls : list call
}.
Arguments mkWorld {W} ext files calls.
Arguments ext {W} w.
Arguments files {W} w.
Arguments calls {W} w.

(** ** State and exception monad *)

Definition M (S A : Type) : Type := S -> outcome A * S.

Definition ret {S A} (a : A) : M S A := fun s => (Return a, s).

Definition raise {S A} (e : exn) : M S A := fun s => (Raise e, s).

Definition bind {S A B} (m : M S A) (k : A -> M S B) : M S B :=
  fun s =>
    match m s with
    | (Return a, s') => k a s'
    | (Raise e, s') => (Raise e, s')
    end.

(** [try: body / except C: handler], [C] given by the classes it catches. *)
Definition try_except {S A} (body : M S A) (catches : exn -> bool)
    (handler : M S A) : M S A :=
  fun s =>
    match body s with
    | (Return a, s') => (Return a, s')
    | (Raise e, s') => if catches e then handler s' else (Raise e, s')
    end.

Declare Scope py_scope.
Delimit Scope py_scope with py.
Notation "x <- c1 ;; c2" := (bind c1 (fun x => c2))
  (at level 100, c1 at next level, right associativity) : py_scope.
Notation "c1 ;; c2" := (bind c1 (fun _ => c2))
  (at level 100, c2 at level 200, right associativity) : py_scope.
Open Scope py_scope.

(** The state of one order's pipeline: the order object and the world. *)
Definition Frame (W : Type) : Type := (Order.t * World W)%type.

Section Model.
Context {W : Type} `{!DatabaseService W, !APIClient W, !Runtime W}.

(** *** Primitive effects *)

Definition get_order : M (Frame W) Order.t :=
  fun s => (Return (fst s), s).

Definition set_status (v : string) : M (Frame W) unit :=
  fun s => (Return tt, (Order.set_status v (fst s), snd s)).

Definition set_priority (v : string) : M (Frame W) unit :=
  fun s => (Return tt, (Order.set_priority v (fst s), snd s)).

(** Run an effect on the world while an order is being processed. *)
Definition in_world {A} (m : M (World W) A) : M (Frame W) A :=
  fun s => let '(r, w') := m (snd s) in (r, (fst s, w')).

(** [self.db_service.get_orders_by_user(user_id)] *)
Definition db_get_orders_by_user (user_id : Z) : M (World W) Fetched :=
  fun w =>
    let '(r, e') := get_orders_by_user user_id (ext w) in
    (r, mkWorld e' (files w) (calls w ++ [CallGetOrders user_id])).

(** [self.db_service.update_order_status(order_id, status, priority)] *)
Definition db_update_order_status (order_id : Z) (st pr : string)
    : M (World W) bool :=
  fun w =>
    let '(r, e') := update_order_status order_id st pr (ext w) in
    (r, mkWorld e' (files w) (calls w ++ [CallUpdate order_id st pr])).

(** [self.api_client.call_api(order_id)] *)
Definition api_call_api (order_id : Z) : M (World W) APIResponse.t :=
  fun w =>
    let '(r, e') := call_api order_id (ext w) in
    (r, mkWorld e' (files w) (calls w ++ [CallApi order_id])).

(** [int(time.time())] *)
Definition now : M (World W) Z :=
  fun w =>
    let '(t, e') := time_time (ext w) in
    (Return t, mkWorld e' (files w) (calls w)).

(** [open(name, 'w', newline='')]: creates or truncates the file. *)
Definition fs_open (name : string) : M (World W) unit :=
  fun w =>
    match io_fault (OpOpen name) (ext w) with
    | Some e => (Raise e, w)
    | None => (Return tt, mkWorld (ext w) (<[name := []]> (files w)) (calls w))
    end.

(** [writer.writerow(r)] on the file opened under [name]. *)
Definition writerow (name : string) (r : row) : M (World W) unit :=
  fun w =>
    match io_fault (OpWrite name r) (ext w) with
    | Some e => (Raise e, w)
    | None =>
        (Return tt,
         mkWorld (ext w) (alter (fun rows => rows ++ [r]) name (files w)) (calls w))
    end.

(** Closing the file when the [with] block is left. *)
Definition fs_close (name : string) : M (World W) unit :=
  fun w =>
    match io_fault (OpClose name) (ext w) with
    | Some e => (Raise e, w)
    | None => (Return tt, w)
    end.

(** [with open(name, 'w', newline='') as file_handle: body].  The file is
    closed however the body is left; an exception of the body propagates
    unless closing raises one of its own. *)
Definition with_open (name : string) (body : M (Frame W) unit)
    : M (Frame W) unit :=
  in_world (fs_open name) ;;
  fun s =>
    match body s with
    | (Return _, s1) => in_world (fs_close name) s1
    | (Raise e, s1) =>
        match in_world (fs_close name) s1 with
        | (Return _, s2) => (Raise e, s2)
        | (Raise e', s2) => (Raise e', s2)
        end
    end.

(** [api_response.data >= 50] and [api_response.data < 50]: comparing an
    absent payload with a number raises [TypeError]. *)
Definition data_ge {S} (d : option num) (b : num) : M S bool :=
  match d with
  | Some q => ret (num_ge q b)
  | None => raise TypeError
  end.

Definition data_lt {S} (d : option num) (b : num) : M S bool :=
  match d with
  | Some q => ret (num_lt q b)
  | None => raise TypeError
  end.

(** *** OrderProcessingService *)

Definition csv_header : row :=
  [CStr "ID"; CStr "Type"; CStr "Amount"; CStr "Flag"; CStr "Status";
   CStr "Priority"].

Definition csv_note : row :=
  [CStr ""; CStr ""; CStr ""; CStr ""; CStr "Note"; CStr "High value order"].

Definition csv_data (order : Order.t) : row :=
  [CInt (Order.id order); CStr (Order.type order); CNum (Order.amount order);
   CStr (lower (str_bool (Order.flag order))); CStr (Order.status order);
   CStr (Order.priority order)].

(** [f'orders_type_A_{user_id}_{int(time.time())}.csv'] *)
Definition csv_name (user_id t : Z) : string :=
  "orders_type_A_" +:+ str_int user_id +:+ "_" +:+ str_int t +:+ ".csv".

Definition _process_type_a_order (user_id : Z) : M (Frame W) unit :=
  t <- in_world now ;;
  let csv_file := csv_name user_id t in
  try_except
    (with_open csv_file
       (in_world (writerow csv_file csv_header) ;;
        order <- get_order ;;
        in_world (writerow csv_file (csv_data order)) ;;
        order <- get_order ;;
        if num_gt (Order.amount order) 150
        then in_world (writerow csv_file csv_note)
        else ret tt) ;;
     set_status "exported")
    is_IOError
    (set_status "export_failed").

Definition _process_type_b_order : M (Frame W) unit :=
  try_except
    (order <- get_order ;;
     api_response <- in_world (api_call_api (Order.id order)) ;;
     if String.eqb (APIResponse.status api_response) "success" then
       c1 <- data_ge (APIResponse.data api_response) 50 ;;
       order <- get_order ;;
       if c1 && num_lt (Order.amount order) 100 then
         set_status "processed"
       else
         c2 <- data_lt (APIResponse.data api_response) 50 ;;
         order <- get_order ;;
         if c2 || Order.flag order then set_status "pending"
         else set_status "error"
     else
       set_status "api_error")
    is_APIException
    (set_status "api_failure").

Definition _process_type_c_order : M (Frame W) unit :=
  order <- get_order ;;
  if Order.flag order then set_status "completed"
  else set_status "in_progress".

Definition _set_order_priority : M (Frame W) unit :=
  order <- get_order ;;
  if num_gt (Order.amount order) 200 then set_priority "high"
  else set_priority "low".

Definition _update_order_status : M (Frame W) unit :=
  try_except
    (order <- get_order ;;
     in_world (db_update_order_status (Order.id order) (Order.status order)
                 (Order.priority order)) ;;
     ret tt)
    is_DatabaseException
    (set_status "db_error").

Definition _process_order (user_id : Z) : M (Frame W) unit :=
  (order <- get_order ;;
   if String.eqb (Order.type order) "A" then _process_type_a_order user_id
   else if String.eqb (Order.type order) "B" then _process_type_b_order
   else if String.eqb (Order.type order) "C" then _process_type_c_order
   else set_status "unknown_type") ;;
  _set_order_priority ;;
  _update_order_status.

(** [for order in orders: self._process_order(order, user_id)].  The loop
    runs over the objects of the list in order; [objs] holds the current
    state of every object, so an object that stands at several positions is
    processed again from the state its earlier processing left.  When an
    exception escapes, the object being processed keeps what had been
    assigned to it, and the later positions are not reached. *)
Fixpoint for_order_in (orders : list nat) (user_id : Z)
    (objs : nat -> Order.t) (w : World W)
    : outcome unit * (nat -> Order.t) * World W :=
  match orders with
  | [] => (Return tt, objs, w)
  | r :: rest =>
      match _process_order user_id (objs r, w) with
      | (Return _, (order', w')) =>
          for_order_in rest user_id (<[r := order']> objs) w'
      | (Raise e, (order', w')) => (Raise e, <[r := order']> objs, w')
      end
  end.

(** [process_orders]: the boolean it returns, together with the fetched list
    as it stands afterwards (the final state of the object at each position)
    and the final state of the world. *)
Definition process_orders (user_id : Z) (w : World W)
    : bool * list Order.t * World W :=
  match db_get_orders_by_user user_id w with
  | (Raise e, w') => (false, [], w')                  (* except Exception *)
  | (Return orders, w') =>
      match listed orders with
      | [] => (false, [], w')                         (* if not orders *)
      | _ :: _ =>
          match for_order_in (listed orders) user_id (objects orders) w' with
          | (Return _, objs', w'') =>
              (true, as_list objs' (listed orders), w'')
          | (Raise e, objs', w'') =>                  (* except Exception *)
              (false, as_list objs' (listed orders), w'')
          end
      end
  end.

End Model.

(** ** Specification vocabulary *)

(** The terminal values of [status] that section 3 of the design enumerates. *)
Definition terminal_statuses : list string :=
  ["exported"; "export_failed"; "processed"; "pending"; "error"; "api_error";
   "api_failure"; "completed"; "in_progress"; "unknown_type"; "db_error"].

(** The fields of an order that are set by its constructor only. *)
Definition same_fields (o o' : Order.t) : Prop :=
  Order.id o' = Order.id o /\ Order.type o' = Order.type o /\
  Order.amount o' = Order.amount o /\ Order.flag o' = Order.flag o.

(** The order ids of the persistence calls in a call record, oldest first. *)
Definition update_ids (cs : list call) : list Z :=
  omap (fun c => match c with CallUpdate i _ _ => Some i | _ => None end) cs.

(** The file operations one export performs, in the order it performs them. *)
Definition export_writes (name : string) (o : Order.t) : list fsop :=
  [OpOpen name; OpWrite name csv_header; OpWrite name (csv_data o)] ++
  (if num_gt (Order.amount o) 150 then [OpWrite name csv_note] else []).

Definition export_ops (name : string) (o : Order.t) : list fsop :=
  export_writes name o ++ [OpClose name].

(** The states a computation may return in. *)
Definition returns_in {S A} (Q : S -> Prop) (m : M S A) : Prop :=
  forall s a s', m s = (Return a, s') -> Q s'.

(** The world after a collaborator call that left the state [e'] and was
    recorded as [c]. *)
Definition after_call {W} (w : World W) (e' : W) (c : call) : World W :=
  mkWorld e' (files w) (calls w ++ [c]).

(** A relation between the state before and the state after a computation
    that holds whatever the outcome (returned or raised). *)
Definition maintains {S A} (R : S -> S -> Prop) (m : M S A) : Prop :=
  forall s, R s (snd (m s)).

(** The order being processed has reached a terminal status. *)
Definition has_terminal_status {W} (s : Frame W) : Prop :=
  Order.status (fst s) ∈ terminal_statuses.

(** What one order's pipeline may change: the two mutable fields only. *)
Definition frame_rel {W} (s s' : Frame W) : Prop := same_fields (fst s) (fst s').

(** What the type-specific stage may do to the call record: no persistence
    call is added to it. *)
Definition updates_rel {W} (s s' : Frame W) : Prop :=
  update_ids (calls (snd s')) = update_ids (calls (snd s)).

(** The first stage of [_process_order], the dispatch on [order.type], on
    its own. *)
Definition type_specific_stage {W}
    `{!DatabaseService W, !APIClient W, !Runtime W} (user_id : Z)
    : M (Frame W) unit :=
  order <- get_order ;;
  if String.eqb (Order.type order) "A" then _process_type_a_order user_id
  else if String.eqb (Order.type order) "B" then _process_type_b_order
  else if String.eqb (Order.type order) "C" then _process_type_c_order
  else set_status "unknown_type".

(** [amount > 200] decides the priority tier. *)
Definition priority_of (amount : num) : string :=
  if num_gt amount 200 then "high" else "low".

(** *** Well-behaved collaborators

    The interfaces promise one exception class each (section 6): a
    persistence error from the repository's write, a remote-call error from
    the remote service, an I/O error from the file system; and a "success"
    response carries a number. *)
Definition db_raises_only_DatabaseException `{!DatabaseService W} : Prop :=
  forall i st pr (w w' : W) e,
    update_order_status i st pr w = (Raise e, w') -> e = DatabaseException.

Definition api_raises_only_APIException `{!APIClient W} : Prop :=
  forall i (w w' : W) e, call_api i w = (Raise e, w') -> e = APIException.

Definition api_success_is_numeric `{!APIClient W} : Prop :=
  forall i (w w' : W) r,
    call_api i w = (Return r, w') ->
    APIResponse.status r = "success" -> APIResponse.data r <> None.

Definition io_raises_only_IOError `{!Runtime W} : Prop :=
  forall op (w : W) e, io_fault op w = Some e -> e = IOError.

Definition classified_faults_only
    `{!DatabaseService W, !APIClient W, !Runtime W} : Prop :=
  db_raises_only_DatabaseException /\ api_raises_only_APIException /\
  api_success_is_numeric /\ io_raises_only_IOError.

(** ** Test doubles

    One configurable double per interface, in the manner of
    [unittest.mock.Mock]: its state is the scenario it was configured with,
    and every call answers from it. *)
Record Scenario : Type := mkScenario {
  sc_orders : outcome Fetched;
  sc_update : outcome bool;
  sc_api : outcome APIResponse.t;
  sc_clock : Z;
  sc_io : fsop -> option exn
}.

#[export] Instance MockDatabaseService : DatabaseService Scenario := {
  get_orders_by_user _ w := (sc_orders w, w);
  update_order_status _ _ _ w := (sc_update w, w)
}.

#[export] Instance MockAPIClient : APIClient Scenario := {
  call_api _ w := (sc_api w, w)
}.

#[export] Instance MockRuntime : Runtime Scenario := {
  time_time w := (sc_clock w, w);
  io_fault op w := sc_io w op
}.

Definition no_io_fault (op : fsop) : option exn := None.
Definition open_fails (op : fsop) : option exn :=
  match op with OpOpen _ => Some IOError | _ => None end.

(** A world with no file and no call yet, around a scenario. *)
Definition fresh (sc : Scenario) : World Scenario := mkWorld sc ∅ [].

(** Freshly built orders, each an object of its own: object [i] stands at
    position [i] (other identities, not in the list, are given the state of
    an arbitrary order). *)
Definition distinct (os : list Order.t) : Fetched :=
  mkFetched (fun r => nth r os (Order.init 0 "" 0 false)) (seq 0 (length os)).

(** The scenarios of test_exam.py: one fetched order, the collaborators
    patched to return or raise; and a batch of two orders. *)
Definition success (d : option num) : outcome APIResponse.t :=
  Return (APIResponse.mk "success" d).

Definition sc_single (o : Order.t) (api : outcome APIResponse.t)
    (upd : outcome bool) (io : fsop -> option exn) : Scenario :=
  mkScenario (Return (distinct [o])) upd api 1700000000 io.

Definition sc_two_orders (api : outcome APIResponse.t) : Scenario :=
  mkScenario
    (Return (distinct [Order.init 1 "B" 50 false; Order.init 2 "C" 50 true]))
    (Return true) api 1700000000 no_io_fault.



Definition sc_fetch (r : outcome Fetched) : Scenario :=
  mkScenario r (Return true) (success (Some 50%num)) 1700000000 no_io_fault.

(** Collaborators that fail the way their interface says: each of the three
    may be out of service, and then raises its own exception class. *)
Record Outage : Type := mkOutage {
  db_down : bool;
  api_down : bool;
  disk_full : bool
}.

Definition outage_batch : list Order.t :=
  [Order.init 1 "A" 250 false; Order.init 2 "B" 50 false;
   Order.init 3 "C" 50 true; Order.init 4 "X" 50 false].

#[export] Instance OutageDatabaseService : DatabaseService Outage := {
  get_orders_by_user _ w := (Return (distinct outage_batch), w);
  update_order_status _ _ _ w :=
    (if db_down w then Raise DatabaseException else Return true, w)
}.

#[export] Instance OutageAPIClient : APIClient Outage := {
  call_api _ w := (if api_down w then Raise APIException
                   else success (Some 60%num), w)
}.

#[export] Instance OutageRuntime : Runtime Outage := {
  time_time w := (1700000000, w);
  io_fault op w := if disk_full w then Some IOError else None
}.

Definition all_down : World Outage := mkWorld (mkOutage true true true) ∅ [].

(** ** Further vocabulary *)

(** The order ids of the remote calls in a call record, oldest first. *)
Definition api_ids (cs : list call) : list Z :=
  omap (fun c => match c with CallApi i => Some i | _ => None end) cs.

(** The statuses the type-specific stage assigns: every terminal status but
    "db_error", which only [_update_order_status] sets. *)
Definition stage_statuses : list string :=
  ["exported"; "export_failed"; "processed"; "pending"; "error"; "api_error";
   "api_failure"; "completed"; "in_progress"; "unknown_type"].

(** The collaborator calls a pipeline may make: a remote call, or a
    persistence call carrying a status of the type-specific stage and a
    priority tier; never a fetch. *)
Definition pipeline_call (c : call) : Prop :=
  match c with
  | CallGetOrders _ => False
  | CallApi _ => True
  | CallUpdate _ st pr => st ∈ stage_statuses /\ (pr = "high" \/ pr = "low")
  end.

(** The rows of a complete export of an order. *)
Definition export_rows (o : Order.t) : list row :=
  [csv_header; csv_data o] ++
  (if num_gt (Order.amount o) 150 then [csv_note] else []).

(** A character that occurs in a string. *)
Fixpoint occurs (c : ascii) (s : string) : Prop :=
  match s with
  | EmptyString => False
  | String a s' => a = c \/ occurs c s'
  end.

(** ** Basic facts *)

Create HintDb stage.

(** Membership in a list written out, and case analysis on it. *)
Ltac in_list :=
  simpl; repeat first [apply list_elem_of_here | apply list_elem_of_further].

Ltac cases_in H :=
  repeat match type of H with
    | _ ∈ _ :: _ => apply elem_of_cons in H as [-> | H]; [assumption |]
    end;
  inversion H.

Ltac split_in H :=
  repeat (apply elem_of_cons in H as [-> | H]); try solve [inversion H].

Ltac run_export :=
  unfold _process_type_a_order, try_except, with_open, bind, in_world, now,
    fs_open, writerow, fs_close, get_order, set_status, ret; simpl.

Lemma num_lt_spec (a b : num) : num_lt a b = true <-> (a < b)%num.
Proof.
  destruct a as [x | [] |], b as [y | [] |]; simpl;
    try (split; [intros; exact I | reflexivity]);
    try (split; [discriminate | intros []]).
  rewrite negb_true_iff, <- not_true_iff_false, Qle_bool_iff.
  split; [apply Qnot_le_lt | apply Qlt_not_le].
Qed.

Lemma num_le_spec (a b : num) : num_le a b = true <-> (a <= b)%num.
Proof.
  destruct a as [x | [] |], b as [y | [] |]; simpl;
    try (split; [intros; exact I | reflexivity]);
    try (split; [discriminate | intros []]).
  apply Qle_bool_iff.
Qed.

Lemma num_lt_false (a b : num) : num_lt a b = false <-> ~ (a < b)%num.
Proof. rewrite <- not_true_iff_false, num_lt_spec. reflexivity. Qed.

Lemma num_le_false (a b : num) : num_le a b = false <-> ~ (a <= b)%num.
Proof. rewrite <- not_true_iff_false, num_le_spec. reflexivity. Qed.

Lemma num_gt_spec (a b : num) : num_gt a b = true <-> (b < a)%num.
Proof. apply num_lt_spec. Qed.

Lemma num_gt_false (a b : num) : num_gt a b = false <-> ~ (b < a)%num.
Proof. apply num_lt_false. Qed.

Lemma num_ge_spec (a b : num) : num_ge a b = true <-> (b <= a)%num.
Proof. apply num_le_spec. Qed.

Lemma num_ge_false (a b : num) : num_ge a b = false <-> ~ (b <= a)%num.
Proof. apply num_le_false. Qed.

(** Numbers other than [nan] are totally ordered. *)
Lemma not_lt_num (a b : num) :
  a <> NaN -> b <> NaN -> (~ (a < b)%num <-> (b <= a)%num).
Proof.
  intros Ha Hb. destruct a as [x | [] |], b as [y | [] |]; simpl;
    try congruence; try tauto.
  split; [apply Qnot_lt_le | apply Qle_not_lt].
Qed.

Lemma not_le_num (a b : num) :
  a <> NaN -> b <> NaN -> (~ (a <= b)%num <-> (b < a)%num).
Proof.
  intros Ha Hb. destruct a as [x | [] |], b as [y | [] |]; simpl;
    try congruence; try tauto.
  split; [apply Qnot_le_lt | apply Qlt_not_le].
Qed.

Lemma lt_num_not_le (a b : num) : (a < b)%num -> ~ (b <= a)%num.
Proof.
  destruct a as [x | [] |], b as [y | [] |]; simpl; try tauto.
  apply Qlt_not_le.
Qed.

Lemma lt_num_not_nan (a b : num) : (a < b)%num -> a <> NaN /\ b <> NaN.
Proof. destruct a as [x | [] |], b as [y | [] |]; simpl; intros H; try tauto; split; discriminate. Qed.

Lemma le_num_not_nan (a b : num) : (a <= b)%num -> a <> NaN /\ b <> NaN.
Proof. destruct a as [x | [] |], b as [y | [] |]; simpl; intros H; try tauto; split; discriminate. Qed.

(** The three-way rule of the type-"B" stage, read as a function of the
    payload, the amount and the flag. *)
Lemma type_b_rule (d amount : num) (flag : bool) :
  let st := if num_ge d 50 && num_lt amount 100 then "processed"
            else if num_lt d 50 || flag then "pending" else "error" in
  let first := (50 <= d)%num /\ (amount < 100)%num in
  let second := (d < 50)%num \/ flag = true in
  (st = "processed" <-> first) /\
  (st = "pending" <-> ~ first /\ second) /\
  (st = "error" <-> ~ first /\ ~ second).
Proof.
  intros st first second. subst st first second.
  destruct (num_ge d 50) eqn:Hge;
    [apply num_ge_spec in Hge | apply num_ge_false in Hge];
  (destruct (num_lt amount 100) eqn:Hlt;
    [apply num_lt_spec in Hlt | apply num_lt_false in Hlt]);
  (destruct (num_lt d 50) eqn:Hsmall;
    [apply num_lt_spec in Hsmall | apply num_lt_false in Hsmall]);
  destruct flag; cbn [andb orb];
  (split; [| split]); (split; intros Hgoal); try discriminate Hgoal;
    try reflexivity; intuition (try congruence).
Qed.

Arguments num_lt : simpl never.
Arguments num_le : simpl never.
Arguments num_gt : simpl never.
Arguments num_ge : simpl never.
Arguments lt_num : simpl never.
Arguments le_num : simpl never.

Lemma lower_str_bool (b : bool) :
  lower (str_bool b) = if b then "true" else "false".
Proof. destruct b; reflexivity. Qed.

Lemma update_ids_app (cs ds : list call) :
  update_ids (cs ++ ds) = update_ids cs ++ update_ids ds.
Proof. apply omap_app. Qed.

Lemma same_fields_refl (o : Order.t) : same_fields o o.
Proof. repeat split. Qed.

Lemma same_fields_trans (o1 o2 o3 : Order.t) :
  same_fields o1 o2 -> same_fields o2 o3 -> same_fields o1 o3.
Proof.
  unfold same_fields. intros (? & ? & ? & ?) (? & ? & ? & ?).
  repeat split; congruence.
Qed.

Lemma not_new_of_terminal (s : string) : s ∈ terminal_statuses -> s <> "new".
Proof.
  unfold terminal_statuses. rewrite !elem_of_cons, elem_of_nil.
  intros H ->. repeat destruct H as [H | H]; try discriminate H. exact H.
Qed.

(** *** Inversion of the monad's combinators *)

Section Monad_facts.
Context {S A B : Type}.

Lemma bind_Return_inv (m : M S A) (k : A -> M S B) (s s' : S) (b : B) :
  bind m k s = (Return b, s') ->
  exists a s1, m s = (Return a, s1) /\ k a s1 = (Return b, s').
Proof.
  unfold bind. destruct (m s) as [[a | e] s1]; intros H.
  - exists a, s1. split; [reflexivity | exact H].
  - discriminate H.
Qed.

Lemma bind_Return (m : M S A) (k : A -> M S B) (s s1 : S) (a : A) :
  m s = (Return a, s1) -> bind m k s = k a s1.
Proof. unfold bind. intros ->. reflexivity. Qed.

End Monad_facts.

(** *** Relations every step of a computation maintains

    [R] relates the state before a step to the state after it, whatever the
    outcome.  A reflexive and transitive [R] that the primitive effects of a
    computation maintain is maintained by the computation. *)
Section Maintains.
Context {S : Type} (R : S -> S -> Prop).
Hypothesis R_refl : forall s, R s s.
Hypothesis R_trans : forall s1 s2 s3, R s1 s2 -> R s2 s3 -> R s1 s3.

Lemma maintains_ret {A} (a : A) : maintains R (ret a).
Proof. intros s. apply R_refl. Qed.

Lemma maintains_bind {A B} (m : M S A) (k : A -> M S B) :
  maintains R m -> (forall a, maintains R (k a)) -> maintains R (bind m k).
Proof.
  intros Hm Hk s. unfold bind. specialize (Hm s).
  destruct (m s) as [[a | e] s1]; simpl in *.
  - eapply R_trans; [exact Hm | apply Hk].
  - exact Hm.
Qed.

Lemma maintains_try_except {A} (body handler : M S A) (c : exn -> bool) :
  maintains R body -> maintains R handler ->
  maintains R (try_except body c handler).
Proof.
  intros Hb Hh s. unfold try_except. specialize (Hb s).
  destruct (body s) as [[a | e] s1]; simpl in *; [exact Hb |].
  destruct (c e); [| exact Hb].
  eapply R_trans; [exact Hb | apply Hh].
Qed.

Lemma maintains_if {A} (b : bool) (m1 m2 : M S A) :
  maintains R m1 -> maintains R m2 -> maintains R (if b then m1 else m2).
Proof. destruct b; auto. Qed.

End Maintains.

(** ** The per-order pipeline *)

Section Pipeline.
Context {W : Type} `{!DatabaseService W, !APIClient W, !Runtime W}.

Lemma process_order_stages (user_id : Z) :
  _process_order user_id =
  (type_specific_stage user_id ;; _set_order_priority ;; _update_order_status).
Proof. reflexivity. Qed.

(** *** Frame: the constructor's fields are never assigned *)

Lemma frame_in_world {A} (m : M (World W) A) : maintains frame_rel (in_world m).
Proof.
  intros [o w]. unfold in_world. simpl. destruct (m w) as [r w'].
  apply same_fields_refl.
Qed.

Lemma frame_get_order : maintains (@frame_rel W) get_order.
Proof. intros s. apply same_fields_refl. Qed.

Lemma frame_set_status (v : string) : maintains (@frame_rel W) (set_status v).
Proof. intros s. repeat split. Qed.

Lemma frame_set_priority (v : string) :
  maintains (@frame_rel W) (set_priority v).
Proof. intros s. repeat split. Qed.

(** *** What the type-specific stage maintains

    The stage is built from reads and writes of [status], and from effects on
    the world that add no persistence call; any reflexive and transitive
    relation these maintain is maintained by the stage, however it ends. *)
Section Stage_maintains.
Variable R : Frame W -> Frame W -> Prop.
Hypothesis R_refl : forall s, R s s.
Hypothesis R_trans : forall s1 s2 s3, R s1 s2 -> R s2 s3 -> R s1 s3.
Hypothesis R_world : forall A (m : M (World W) A),
  (forall w, update_ids (calls (snd (m w))) = update_ids (calls w)) ->
  maintains R (in_world m).
Hypothesis R_status : forall v, maintains R (set_status v).

Lemma maintains_get_order : maintains R get_order.
Proof. intros s. apply R_refl. Qed.

Lemma maintains_now : maintains R (in_world now).
Proof.
  apply R_world. intros w. unfold now. destruct (time_time (ext w)). reflexivity.
Qed.

Lemma maintains_fs_open (name : string) : maintains R (in_world (fs_open name)).
Proof.
  apply R_world. intros w. unfold fs_open. destruct (io_fault _ _); reflexivity.
Qed.

Lemma maintains_fs_close (name : string) :
  maintains R (in_world (fs_close name)).
Proof.
  apply R_world. intros w. unfold fs_close. destruct (io_fault _ _); reflexivity.
Qed.

Lemma maintains_writerow (name : string) (r : row) :
  maintains R (in_world (writerow name r)).
Proof.
  apply R_world. intros w. unfold writerow. destruct (io_fault _ _); reflexivity.
Qed.

Lemma maintains_api_call_api (i : Z) : maintains R (in_world (api_call_api i)).
Proof.
  apply R_world. intros w. unfold api_call_api.
  destruct (call_api i (ext w)). simpl. rewrite update_ids_app. simpl.
  apply app_nil_r.
Qed.

Lemma maintains_data_ge (d : option num) (b : num) :
  maintains R (@data_ge (Frame W) d b).
Proof. intros s. destruct d; apply R_refl. Qed.

Lemma maintains_data_lt (d : option num) (b : num) :
  maintains R (@data_lt (Frame W) d b).
Proof. intros s. destruct d; apply R_refl. Qed.

Lemma maintains_with_open (name : string) (body : M (Frame W) unit) :
  maintains R body -> maintains R (with_open name body).
Proof.
  intros Hbody. unfold with_open.
  apply maintains_bind; [exact R_trans | apply maintains_fs_open |].
  intros _ s. specialize (Hbody s).
  destruct (body s) as [[[] | e] s1]; simpl in Hbody.
  - eapply R_trans; [exact Hbody | apply maintains_fs_close].
  - pose proof (maintains_fs_close name s1) as Hclose.
    destruct (in_world (fs_close name) s1) as [[[] | e'] s2]; simpl in *;
      eapply R_trans; eauto.
Qed.

Local Hint Resolve maintains_get_order maintains_now maintains_writerow
  maintains_api_call_api maintains_data_ge maintains_data_lt
  maintains_with_open : stage.
Local Hint Extern 1 (maintains _ (set_status _)) => apply R_status : stage.
Local Hint Extern 1 (maintains _ (ret _)) =>
  apply maintains_ret; exact R_refl : stage.
Local Hint Extern 2 (maintains _ (bind _ _)) =>
  apply maintains_bind; [exact R_trans | | intro] : stage.
Local Hint Extern 2 (maintains _ (try_except _ _ _)) =>
  apply maintains_try_except; [exact R_trans | | ] : stage.
Local Hint Extern 2 (maintains _ (if _ then _ else _)) =>
  apply maintains_if : stage.

Lemma maintains_type_a (user_id : Z) :
  maintains R (_process_type_a_order user_id).
Proof. unfold _process_type_a_order. auto 12 with stage. Qed.

Lemma maintains_type_b : maintains R _process_type_b_order.
Proof. unfold _process_type_b_order. auto 12 with stage. Qed.

Lemma maintains_type_c : maintains R _process_type_c_order.
Proof. unfold _process_type_c_order. auto 12 with stage. Qed.

Lemma maintains_type_specific_stage (user_id : Z) :
  maintains R (type_specific_stage user_id).
Proof.
  unfold type_specific_stage.
  apply maintains_bind; [exact R_trans | apply maintains_get_order |].
  intros order. repeat apply maintains_if;
    auto using maintains_type_a, maintains_type_b, maintains_type_c.
Qed.

End Stage_maintains.


Lemma frame_type_specific_stage (user_id : Z) :
  maintains frame_rel (type_specific_stage user_id).
Proof.
  apply maintains_type_specific_stage.
  - intros s. apply same_fields_refl.
  - intros s1 s2 s3. apply same_fields_trans.
  - intros A m _. apply frame_in_world.
  - apply frame_set_status.
Qed.

Lemma updates_type_specific_stage (user_id : Z) :
  maintains updates_rel (type_specific_stage user_id).
Proof.
  apply maintains_type_specific_stage; unfold updates_rel.
  - reflexivity.
  - intros s1 s2 s3 H12 H23. rewrite H23. exact H12.
  - intros A m Hm [o w]. unfold in_world. simpl.
    specialize (Hm w). destruct (m w) as [r w']. exact Hm.
  - intros v s. reflexivity.
Qed.

(** *** The stages, run *)

Lemma set_order_priority_run (o : Order.t) (w : World W) :
  _set_order_priority (o, w) =
  (Return tt, (Order.set_priority (priority_of (Order.amount o)) o, w)).
Proof.
  unfold _set_order_priority, priority_of, bind, get_order, set_priority. simpl.
  destruct (num_gt (Order.amount o) 200); reflexivity.
Qed.

Lemma update_order_status_run (o : Order.t) (w : World W)
    (r : outcome bool) (e' : W) :
  update_order_status (Order.id o) (Order.status o) (Order.priority o) (ext w)
    = (r, e') ->
  let w' := after_call w e'
              (CallUpdate (Order.id o) (Order.status o) (Order.priority o)) in
  _update_order_status (o, w) =
  match r with
  | Return _ => (Return tt, (o, w'))
  | Raise e =>
      if is_DatabaseException e
      then (Return tt, (Order.set_status "db_error" o, w'))
      else (Raise e, (o, w'))
  end.
Proof.
  intros Hcall. unfold _update_order_status, try_except, bind, get_order,
    in_world, db_update_order_status, after_call. simpl. rewrite Hcall.
  destruct r as [b | e]; [reflexivity |]. destruct e; reflexivity.
Qed.

Lemma process_type_c_order_run (o : Order.t) (w : World W) :
  _process_type_c_order (o, w) =
  (Return tt,
   (Order.set_status (if Order.flag o then "completed" else "in_progress") o, w)).
Proof.
  unfold _process_type_c_order, bind, get_order, set_status. simpl.
  destruct (Order.flag o); reflexivity.
Qed.

Lemma process_type_b_order_run (o : Order.t) (w : World W)
    (r : outcome APIResponse.t) (e' : W) :
  call_api (Order.id o) (ext w) = (r, e') ->
  let w' := after_call w e' (CallApi (Order.id o)) in
  _process_type_b_order (o, w) =
  match r with
  | Raise e =>
      if is_APIException e
      then (Return tt, (Order.set_status "api_failure" o, w'))
      else (Raise e, (o, w'))
  | Return resp =>
      if String.eqb (APIResponse.status resp) "success" then
        match APIResponse.data resp with
        | None => (Raise TypeError, (o, w'))
        | Some d =>
            (Return tt,
             (Order.set_status
                (if num_ge d 50 && num_lt (Order.amount o) 100 then "processed"
                 else if num_lt d 50 || Order.flag o then "pending"
                 else "error") o, w'))
        end
      else (Return tt, (Order.set_status "api_error" o, w'))
  end.
Proof.
  intros Hcall. unfold _process_type_b_order, try_except, bind, get_order,
    in_world, api_call_api, after_call. simpl. rewrite Hcall.
  destruct r as [resp | e]; [| destruct e; reflexivity].
  destruct (String.eqb (APIResponse.status resp) "success"); [| reflexivity].
  destruct (APIResponse.data resp) as [d |]; [| reflexivity]. simpl.
  destruct (num_ge d 50 && num_lt (Order.amount o) 100); [reflexivity |].
  simpl. destruct (num_lt d 50 || Order.flag o); reflexivity.
Qed.


(** *** The export, run *)

Lemma export_rows_file (name : string) (rows : list row) (r : row)
    (fs : gmap string (list row)) :
  alter (fun rows => rows ++ [r]) name (<[name := rows]> fs)
  = <[name := rows ++ [r]]> fs.
Proof. rewrite alter_insert_eq. reflexivity. Qed.

Lemma process_type_a_order_exported (user_id : Z) (o : Order.t) (w : World W)
    (t : Z) (e1 : W) :
  time_time (ext w) = (t, e1) ->
  (forall op, op ∈ export_ops (csv_name user_id t) o -> io_fault op e1 = None) ->
  _process_type_a_order user_id (o, w) =
  (Return tt,
   (Order.set_status "exported" o,
    mkWorld e1
      (<[csv_name user_id t :=
           [csv_header; csv_data o] ++
           (if num_gt (Order.amount o) 150 then [csv_note] else [])]>
         (files w))
      (calls w))).
Proof.
  intros Htime Hok. unfold export_ops, export_writes in Hok.
  run_export. rewrite Htime. simpl.
  destruct (num_gt (Order.amount o) 150) eqn:Hhigh; simpl in Hok;
    repeat match goal with
      | |- context [io_fault ?op e1] => rewrite (Hok op) by in_list; simpl
      | |- context [num_gt (Order.amount o) 150] => rewrite Hhigh; simpl
      end;
    rewrite !export_rows_file; reflexivity.
Qed.

(** With faults of class [IOError] only, the export always returns, and
    tells through [status] whether every file operation went through. *)
Lemma process_type_a_order_outcome (user_id : Z) (o : Order.t) (w : World W)
    (t : Z) (e1 : W) :
  time_time (ext w) = (t, e1) ->
  (forall op e, op ∈ export_ops (csv_name user_id t) o ->
                io_fault op e1 = Some e -> e = IOError) ->
  exists st fs,
    _process_type_a_order user_id (o, w) =
      (Return tt, (Order.set_status st o, mkWorld e1 fs (calls w))) /\
    ((st = "exported" /\
      forall op, op ∈ export_ops (csv_name user_id t) o -> io_fault op e1 = None)
     \/
     (st = "export_failed" /\
      exists op, op ∈ export_ops (csv_name user_id t) o /\
                 io_fault op e1 = Some IOError)).
Proof.
  intros Htime Hio.
  assert (Hcase : forall op, op ∈ export_ops (csv_name user_id t) o ->
            io_fault op e1 = None \/ io_fault op e1 = Some IOError).
  { intros op Hop. destruct (io_fault op e1) as [e |] eqn:E; [right | left; auto].
    f_equal. eauto. }
  clear Hio. run_export. rewrite Htime. simpl.
  unfold export_ops, export_writes in *.
  set (f := csv_name user_id t) in *.
  destruct (num_gt (Order.amount o) 150) eqn:Hhigh; simpl in Hcase |- *;
  repeat match goal with
    | |- context [io_fault ?op e1] =>
        let E := fresh "E" in
        destruct (Hcase op) as [E | E]; [in_list | |]; rewrite E; simpl
    | |- context [num_gt (Order.amount o) 150] => rewrite Hhigh; simpl
    end;
  (eexists _, _; split; [reflexivity |]);
  first
    [ right; split; [reflexivity |];
      match goal with
      | E : io_fault ?op e1 = Some IOError |- _ =>
          exists op; split; [in_list | exact E]
      end
    | left; split; [reflexivity |];
      intros op Hop; simpl in Hop; cases_in Hop ].
Qed.


(** *** The status a stage returns with *)

Lemma returns_in_bind {S A B} (Q : S -> Prop) (m : M S A) (k : A -> M S B) :
  (forall a, returns_in Q (k a)) -> returns_in Q (bind m k).
Proof.
  intros Hk s b s' Hrun. apply bind_Return_inv in Hrun as (a & s1 & _ & Hka).
  exact (Hk a s1 b s' Hka).
Qed.

Lemma returns_in_try_except {S A} (Q : S -> Prop) (body handler : M S A)
    (c : exn -> bool) :
  returns_in Q body -> returns_in Q handler ->
  returns_in Q (try_except body c handler).
Proof.
  intros Hb Hh s a s'. unfold try_except.
  destruct (body s) as [[a1 | e] s1] eqn:Hbody.
  - intros [= <- <-]. exact (Hb s a1 s1 Hbody).
  - destruct (c e); [apply Hh | discriminate].
Qed.

Lemma returns_in_if {S A} (Q : S -> Prop) (b : bool) (m1 m2 : M S A) :
  returns_in Q m1 -> returns_in Q m2 -> returns_in Q (if b then m1 else m2).
Proof. destruct b; auto. Qed.

Lemma returns_in_set_status (v : string) :
  v ∈ terminal_statuses ->
  returns_in (@has_terminal_status W) (set_status v).
Proof. intros Hv s a s' Hrun. inversion Hrun; subst. exact Hv. Qed.

Local Hint Extern 1 (returns_in _ (set_status _)) =>
  apply returns_in_set_status; unfold terminal_statuses; in_list : stage.
Local Hint Extern 2 (returns_in _ (bind _ _)) =>
  apply returns_in_bind; intro : stage.
Local Hint Extern 2 (returns_in _ (try_except _ _ _)) =>
  apply returns_in_try_except : stage.
Local Hint Extern 2 (returns_in _ (if _ then _ else _)) =>
  apply returns_in_if : stage.

Lemma type_specific_stage_terminal (user_id : Z) :
  returns_in has_terminal_status (type_specific_stage user_id).
Proof.
  unfold type_specific_stage, _process_type_a_order, _process_type_b_order,
    _process_type_c_order.
  auto 20 with stage.
Qed.

(** *** The whole pipeline *)

Lemma process_order_inv (user_id : Z) (o o' : Order.t) (w w' : World W) :
  _process_order user_id (o, w) = (Return tt, (o', w')) ->
  exists o1 w1 r e2,
    type_specific_stage user_id (o, w) = (Return tt, (o1, w1)) /\
    let o2 := Order.set_priority (priority_of (Order.amount o1)) o1 in
    update_order_status (Order.id o2) (Order.status o2) (Order.priority o2)
      (ext w1) = (r, e2) /\
    w' = after_call w1 e2
           (CallUpdate (Order.id o2) (Order.status o2) (Order.priority o2)) /\
    ((exists b, r = Return b /\ o' = o2) \/
     (r = Raise DatabaseException /\ o' = Order.set_status "db_error" o2)).
Proof.
  rewrite process_order_stages. intros Hrun.
  apply bind_Return_inv in Hrun as ([] & [o1 w1] & Hstage & Hrun).
  apply bind_Return_inv in Hrun as ([] & s2 & Hprio & Hrun).
  rewrite set_order_priority_run in Hprio. injection Hprio as <-.
  set (o2 := Order.set_priority _ o1) in *.
  destruct (update_order_status (Order.id o2) (Order.status o2)
              (Order.priority o2) (ext w1)) as [r e2] eqn:Hupd.
  rewrite (update_order_status_run _ _ _ _ Hupd) in Hrun.
  exists o1, w1, r, e2. split; [exact Hstage |]. cbv zeta. fold o2.
  split; [exact Hupd |]. destruct r as [b | e].
  - injection Hrun as <- <-. split; [reflexivity |]. left. eauto.
  - destruct e; try discriminate Hrun. injection Hrun as <- <-.
    split; [reflexivity |]. right. auto.
Qed.


Lemma process_order_returned (user_id : Z) (o o' : Order.t) (w w' : World W) :
  _process_order user_id (o, w) = (Return tt, (o', w')) ->
  Order.status o' ∈ terminal_statuses /\
  Order.priority o' = priority_of (Order.amount o) /\
  same_fields o o' /\
  update_ids (calls w') = update_ids (calls w) ++ [Order.id o].
Proof.
  intros Hrun.
  apply process_order_inv in Hrun
    as (o1 & w1 & r & e2 & Hstage & Hupd & -> & Hfinal).
  pose proof (type_specific_stage_terminal _ _ _ _ Hstage) as Hterm.
  pose proof (frame_type_specific_stage user_id (o, w)) as Hframe.
  pose proof (updates_type_specific_stage user_id (o, w)) as Hcalls.
  rewrite Hstage in Hframe, Hcalls.
  unfold has_terminal_status, frame_rel, updates_rel in *. simpl in *.
  destruct Hframe as (Hid & Hty & Ham & Hfl).
  assert (Hids : update_ids
            (calls (after_call w1 e2
               (CallUpdate (Order.id o1) (Order.status o1)
                  (priority_of (Order.amount o1)))))
          = update_ids (calls w) ++ [Order.id o]).
  { unfold after_call. simpl. rewrite update_ids_app, Hcalls, Hid. reflexivity. }
  destruct Hfinal as [(b & -> & ->) | (-> & ->)]; simpl.
  - repeat split; auto. rewrite Ham. reflexivity.
  - repeat split; auto.
    + unfold terminal_statuses. in_list.
    + rewrite Ham. reflexivity.
Qed.

Lemma frame_process_order (user_id : Z) :
  maintains frame_rel (_process_order user_id).
Proof.
  rewrite process_order_stages.
  assert (Htrans : forall s1 s2 s3 : Frame W,
            frame_rel s1 s2 -> frame_rel s2 s3 -> frame_rel s1 s3).
  { intros s1 s2 s3. apply same_fields_trans. }
  apply maintains_bind; [exact Htrans | apply frame_type_specific_stage |].
  intros _. apply maintains_bind; [exact Htrans | |].
  - unfold _set_order_priority.
    apply maintains_bind; [exact Htrans | apply frame_get_order |].
    intros order. apply maintains_if; apply frame_set_priority.
  - intros _. unfold _update_order_status.
    apply maintains_try_except; [exact Htrans | | apply frame_set_status].
    apply maintains_bind; [exact Htrans | apply frame_get_order |].
    intros order. apply maintains_bind; [exact Htrans | apply frame_in_world |].
    intros _ s. apply same_fields_refl.
Qed.

(** *** Collaborators that raise their own exception class only *)

Lemma type_specific_stage_returns (user_id : Z) (s : Frame W) :
  classified_faults_only ->
  exists s', type_specific_stage user_id s = (Return tt, s').
Proof.
  intros (_ & Hapi & Hnum & Hio). destruct s as [o w].
  unfold type_specific_stage, bind, get_order. simpl.
  destruct (String.eqb (Order.type o) "A").
  { destruct (time_time (ext w)) as [t e1] eqn:Htime.
    destruct (process_type_a_order_outcome user_id o w t e1 Htime)
      as (st & fs & Hrun & _); [intros op e _; apply Hio | eauto]. }
  destruct (String.eqb (Order.type o) "B").
  { destruct (call_api (Order.id o) (ext w)) as [r e'] eqn:Hcall.
    rewrite (process_type_b_order_run _ _ _ _ Hcall).
    destruct r as [resp | e].
    - destruct (String.eqb _ "success") eqn:Hsucc; [| eauto].
      apply String.eqb_eq in Hsucc.
      specialize (Hnum _ _ _ _ Hcall Hsucc).
      destruct (APIResponse.data resp); [eauto | congruence].
    - rewrite (Hapi _ _ _ _ Hcall). simpl. eauto. }
  destruct (String.eqb (Order.type o) "C").
  { rewrite process_type_c_order_run. eauto. }
  unfold set_status. eauto.
Qed.

Lemma process_order_returns (user_id : Z) (s : Frame W) :
  classified_faults_only ->
  exists s', _process_order user_id s = (Return tt, s').
Proof.
  intros Hok. rewrite process_order_stages.
  destruct (type_specific_stage_returns user_id s Hok) as ([o1 w1] & Hstage).
  rewrite (bind_Return _ _ _ _ _ Hstage).
  rewrite (bind_Return _ _ _ _ _ (set_order_priority_run o1 w1)).
  set (o2 := Order.set_priority _ o1).
  destruct (update_order_status (Order.id o2) (Order.status o2)
              (Order.priority o2) (ext w1)) as [r e2] eqn:Hupd.
  rewrite (update_order_status_run _ _ _ _ Hupd).
  destruct r as [b | e]; [eauto |].
  destruct Hok as (Hdb & _). rewrite (Hdb _ _ _ _ _ _ Hupd). simpl. eauto.
Qed.

(** *** The loop over the fetched orders *)

Lemma Forall_as_list (P : Order.t -> Prop) (objs : nat -> Order.t)
    (refs : list nat) :
  (forall r, r ∈ refs -> P (objs r)) -> Forall P (as_list objs refs).
Proof.
  induction refs as [| r rest IH]; intros H; simpl; constructor.
  - apply H. in_list.
  - apply IH. intros r' Hr'. apply H. apply list_elem_of_further, Hr'.
Qed.

Lemma Forall2_as_list (P : Order.t -> Order.t -> Prop)
    (objs objs' : nat -> Order.t) (refs : list nat) :
  (forall r, r ∈ refs -> P (objs r) (objs' r)) ->
  Forall2 P (as_list objs refs) (as_list objs' refs).
Proof.
  induction refs as [| r rest IH]; intros H; simpl; constructor.
  - apply H. in_list.
  - apply IH. intros r' Hr'. apply H. apply list_elem_of_further, Hr'.
Qed.

(** What a loop that returned has done to the objects.  [Q] is any
    property that one returned pipeline establishes between an object as
    fetched and the object as it leaves the pipeline, from whatever status
    and priority the object had when the pipeline started. *)
Lemma for_order_in_objects (Q : Order.t -> Order.t -> Prop) (user_id : Z) :
  (forall o0 o w o' w',
     same_fields o0 o ->
     _process_order user_id (o, w) = (Return tt, (o', w')) -> Q o0 o') ->
  forall (refs : list nat) (objs0 objs objs' : nat -> Order.t)
         (w w' : World W),
    (forall r, same_fields (objs0 r) (objs r)) ->
    for_order_in refs user_id objs w = (Return tt, objs', w') ->
    (forall r, same_fields (objs0 r) (objs' r)) /\
    (forall r, r ∈ refs -> Q (objs0 r) (objs' r)) /\
    (forall r, r ∉ refs -> objs' r = objs r).
Proof.
  intros Hone. induction refs as [| r rest IH];
    intros objs0 objs objs' w w' Hsame; simpl.
  - intros [= <- <-]. split; [exact Hsame |]. split; [| reflexivity].
    intros r Hr. inversion Hr.
  - pose proof (frame_process_order user_id (objs r, w)) as Hframe.
    destruct (_process_order user_id (objs r, w)) as [[[] | e] [o1 w1]] eqn:Hrun;
      [| discriminate].
    intros Hrest. simpl in Hframe.
    assert (Hsame1 : forall r', same_fields (objs0 r') ((<[r := o1]> objs) r')).
    { intros r'. destruct (decide (r = r')) as [<- | Hne].
      - rewrite fn_lookup_insert.
        eapply same_fields_trans; [apply Hsame | exact Hframe].
      - rewrite fn_lookup_insert_ne by exact Hne. apply Hsame. }
    destruct (IH objs0 _ objs' w1 w' Hsame1 Hrest) as (Hall & HQ & Hout).
    split; [exact Hall |]. split.
    + intros r' Hr'. destruct (decide (r' ∈ rest)) as [Hin | Hnotin].
      * apply HQ, Hin.
      * apply elem_of_cons in Hr' as [-> | Hin]; [| contradiction].
        rewrite (Hout r Hnotin), fn_lookup_insert.
        exact (Hone _ _ _ _ _ (Hsame r) Hrun).
    + intros r' Hr'. apply not_elem_of_cons in Hr' as [Hne Hnotin].
      rewrite (Hout r' Hnotin). apply fn_lookup_insert_ne. congruence.
Qed.

Lemma for_order_in_update_ids (user_id : Z) :
  forall (refs : list nat) (objs objs' : nat -> Order.t) (w w' : World W),
    for_order_in refs user_id objs w = (Return tt, objs', w') ->
    update_ids (calls w') =
    update_ids (calls w) ++ map Order.id (as_list objs refs).
Proof.
  induction refs as [| r rest IH]; intros objs objs' w w'; simpl.
  - intros [= <- <-]. rewrite app_nil_r. reflexivity.
  - destruct (_process_order user_id (objs r, w)) as [[[] | e] [o1 w1]] eqn:Hrun;
      [| discriminate].
    intros Hrest. rewrite (IH _ _ _ _ Hrest).
    apply process_order_returned in Hrun as (_ & _ & (Hid & _) & Hids).
    rewrite Hids, <- app_assoc. simpl. do 2 f_equal.
    clear -Hid. induction rest as [| r' rest IH]; simpl; [reflexivity |].
    rewrite IH. f_equal.
    destruct (decide (r = r')) as [<- | Hne].
    + rewrite fn_lookup_insert. exact Hid.
    + rewrite fn_lookup_insert_ne by exact Hne. reflexivity.
Qed.

Lemma for_order_in_returned (user_id : Z) (refs : list nat)
    (objs objs' : nat -> Order.t) (w w' : World W) :
  for_order_in refs user_id objs w = (Return tt, objs', w') ->
  Forall (fun o => Order.status o ∈ terminal_statuses) (as_list objs' refs) /\
  Forall2 (fun o o' => same_fields o o' /\
                       Order.priority o' = priority_of (Order.amount o))
    (as_list objs refs) (as_list objs' refs) /\
  update_ids (calls w') =
    update_ids (calls w) ++ map Order.id (as_list objs refs).
Proof.
  intros Hloop.
  assert (Hone : forall o0 o w0 o' w0',
            same_fields o0 o ->
            _process_order user_id (o, w0) = (Return tt, (o', w0')) ->
            Order.status o' ∈ terminal_statuses /\ same_fields o0 o' /\
            Order.priority o' = priority_of (Order.amount o0)).
  { intros o0 o w0 o' w0' Hsame Hrun.
    apply process_order_returned in Hrun as (Hterm & Hprio & Hframe & _).
    split; [exact Hterm |]. split.
    - eapply same_fields_trans; eassumption.
    - rewrite Hprio. destruct Hsame as (_ & _ & -> & _). reflexivity. }
  destruct (for_order_in_objects _ user_id Hone refs objs objs objs' w w'
              (fun r => same_fields_refl (objs r)) Hloop) as (_ & HQ & _).
  split; [| split].
  - apply Forall_as_list. intros r Hr. apply (HQ r Hr).
  - apply Forall2_as_list. intros r Hr. apply (HQ r Hr).
  - exact (for_order_in_update_ids _ _ _ _ _ _ Hloop).
Qed.

Lemma type_a_stage (user_id : Z) (o : Order.t) (w : World W) :
  Order.type o = "A" ->
  type_specific_stage user_id (o, w) = _process_type_a_order user_id (o, w).
Proof.
  intros Hty. unfold type_specific_stage, bind, get_order. simpl.
  rewrite Hty. reflexivity.
Qed.

Lemma process_order_open_fails (user_id : Z) (o o' : Order.t) (w w' : World W) :
  io_raises_only_IOError ->
  (forall name (e : W), io_fault (OpOpen name) e = Some IOError) ->
  _process_order user_id (o, w) = (Return tt, (o', w')) ->
  Order.type o = "A" ->
  Order.status o' = "export_failed" \/ Order.status o' = "db_error".
Proof.
  intros Hio Hopen Hrun Hty.
  apply process_order_inv in Hrun
    as (o1 & w1 & r & e2 & Hstage & _ & _ & Hfinal).
  rewrite (type_a_stage _ _ _ Hty) in Hstage.
  destruct (time_time (ext w)) as [t e1] eqn:Htime.
  destruct (process_type_a_order_outcome user_id o w t e1 Htime)
    as (st & fs & Hrun & Hst); [intros op e _; apply Hio |].
  rewrite Hrun in Hstage. injection Hstage as <- _.
  destruct Hfinal as [(b & _ & ->) | (_ & ->)]; [| right; reflexivity].
  left. simpl. destruct Hst as [(_ & Hnone) | (-> & _)]; [| reflexivity].
  specialize (Hnone (OpOpen (csv_name user_id t))).
  rewrite Hopen in Hnone. unfold export_ops, export_writes in Hnone.
  discriminate Hnone. in_list.
Qed.

Lemma for_order_in_returns (user_id : Z) (refs : list nat)
    (objs : nat -> Order.t) (w : World W) :
  classified_faults_only ->
  exists objs' w', for_order_in refs user_id objs w = (Return tt, objs', w').
Proof.
  intros Hok. revert objs w. induction refs as [| r rest IH]; intros objs w; simpl.
  - eauto.
  - destruct (process_order_returns user_id (objs r, w) Hok) as ([o1 w1] & ->).
    apply IH.
Qed.

End Pipeline.

(** ** Verified properties of the per-order stages *)

Section Stage_properties.
Context {W : Type} `{!DatabaseService W, !APIClient W, !Runtime W}.

(** C2 (as the code has it): type-B rules.  When the remote call returns a
    "success" response whose payload is a number [d], the stage returns with
    status "processed" if [d >= 50] and [amount < 100]; otherwise "pending"
    if [d < 50] or the flag is set; otherwise "error".  When neither [d] nor
    the amount is [nan], "error" is therefore reached exactly when
    [d >= 50], [amount >= 100] and the flag is not set; when one of them is
    [nan], every comparison with it is false, and "error" is reached exactly
    when [d < 50] does not hold and the flag is not set.  A "success"
    response whose payload is [None] makes the comparison raise [TypeError],
    which leaves the stage with the order untouched.  A response whose
    status is not "success" gives "api_error", a raised [APIException] gives
    "api_failure", and any other exception of the remote call leaves the
    stage with the order untouched. *)
Theorem type_b_status_rules (o : Order.t) (w : World W)
    (r : outcome APIResponse.t) (e' : W) :
  call_api (Order.id o) (ext w) = (r, e') ->
  let w' := after_call w e' (CallApi (Order.id o)) in
  let returns_with st :=
    _process_type_b_order (o, w) = (Return tt, (Order.set_status st o, w')) in
  let raises e := _process_type_b_order (o, w) = (Raise e, (o, w')) in
  (forall resp d,
     r = Return resp -> APIResponse.status resp = "success" ->
     APIResponse.data resp = Some d ->
     exists st, returns_with st /\
       ((50 <= d)%num /\ (Order.amount o < 100)%num -> st = "processed") /\
       (~ ((50 <= d)%num /\ (Order.amount o < 100)%num) ->
        (d < 50)%num \/ Order.flag o = true -> st = "pending") /\
       (~ ((50 <= d)%num /\ (Order.amount o < 100)%num) ->
        ~ ((d < 50)%num \/ Order.flag o = true) -> st = "error") /\
       (d <> NaN -> Order.amount o <> NaN ->
        (st = "error" <->
         (50 <= d)%num /\ (100 <= Order.amount o)%num /\
         Order.flag o = false)) /\
       (d = NaN \/ Order.amount o = NaN ->
        (st = "error" <-> ~ (d < 50)%num /\ Order.flag o = false))) /\
  (forall resp,
     r = Return resp -> APIResponse.status resp = "success" ->
     APIResponse.data resp = None -> raises TypeError) /\
  (forall resp,
     r = Return resp -> APIResponse.status resp <> "success" ->
     returns_with "api_error") /\
  (r = Raise APIException -> returns_with "api_failure") /\
  (forall e, r = Raise e -> is_APIException e = false -> raises e).
Proof.
  intros Hcall w' returns_with raises. subst returns_with raises w'.
  pose proof (process_type_b_order_run o w r e' Hcall) as Hrun.
  cbv zeta in Hrun. split; [| split; [| split; [| split]]].
  - intros resp d -> Hsucc Hdata. rewrite Hrun.
    apply String.eqb_eq in Hsucc. rewrite Hsucc, Hdata.
    eexists. split; [reflexivity |].
    destruct (type_b_rule d (Order.amount o) (Order.flag o))
      as (Hprocessed & Hpending & Herror).
    split; [apply Hprocessed |]. split; [intros; apply Hpending; auto |].
    split; [intros; apply Herror; auto |].
    assert (Hflag : Order.flag o = true \/ Order.flag o = false)
      by (destruct (Order.flag o); auto).
    assert (Hflag' : Order.flag o = true -> Order.flag o = false -> False)
      by congruence.
    split.
    + intros Hd Ha. rewrite Herror.
      assert (H50 : (50 : num) <> NaN) by discriminate.
      assert (H100 : (100 : num) <> NaN) by discriminate.
      pose proof (not_lt_num d 50 Hd H50) as Hd'.
      pose proof (not_lt_num (Order.amount o) 100 Ha H100) as Ha'.
      pose proof (lt_num_not_le d 50) as Hd''.
      pose proof (lt_num_not_le (Order.amount o) 100) as Ha''.
      tauto.
    + intros Hnan. rewrite Herror.
      assert (Hfirst : ~ ((50 <= d)%num /\ (Order.amount o < 100)%num)).
      { intros (Hge & Hlt).
        destruct (le_num_not_nan _ _ Hge) as [_ Hd].
        destruct (lt_num_not_nan _ _ Hlt) as [Ha _].
        destruct Hnan; contradiction. }
      tauto.
  - intros resp -> Hsucc Hdata. rewrite Hrun.
    apply String.eqb_eq in Hsucc. rewrite Hsucc, Hdata. reflexivity.
  - intros resp -> Hfail. rewrite Hrun.
    apply String.eqb_neq in Hfail. rewrite Hfail. reflexivity.
  - intros ->. rewrite Hrun. reflexivity.
  - intros e -> He. rewrite Hrun, He. reflexivity.
Qed.

(** C5: priority assignment.  [_set_order_priority] sets priority to "high"
    exactly when [amount > 200] and to "low" otherwise, [amount = 200]
    included, whatever the priority was before; and in [_process_order] it
    runs on every order whose type-specific stage has returned, of whatever
    type, so that the order leaves the pipeline with that priority. *)
Theorem priority_assignment (user_id : Z) (o : Order.t) (w : World W) :
  (exists p,
     _set_order_priority (o, w) = (Return tt, (Order.set_priority p o, w)) /\
     (p = "high" <-> (200 < Order.amount o)%num) /\
     (p = "low" <-> ~ (200 < Order.amount o)%num) /\
     (Order.amount o <> NaN ->
      (p = "low" <-> (Order.amount o <= 200)%num)) /\
     (forall q, Order.amount o = Finite q -> (q == 200)%Q -> p = "low")) /\
  (forall o1 w1,
     type_specific_stage user_id (o, w) = (Return tt, (o1, w1)) ->
     let o' := fst (snd (_process_order user_id (o, w))) in
     (Order.priority o' = "high" <-> (200 < Order.amount o)%num) /\
     (Order.priority o' = "low" <-> ~ (200 < Order.amount o)%num) /\
     (Order.amount o <> NaN ->
      (Order.priority o' = "low" <-> (Order.amount o <= 200)%num))).
Proof.
  assert (Hprio : forall a : num,
            (priority_of a = "high" <-> (200 < a)%num) /\
            (priority_of a = "low" <-> ~ (200 < a)%num) /\
            (a <> NaN -> (priority_of a = "low" <-> (a <= 200)%num))).
  { intros a. unfold priority_of.
    assert (Htotal : a <> NaN -> (~ (200 < a)%num <-> (a <= 200)%num)).
    { intros Ha. apply not_lt_num; [discriminate | exact Ha]. }
    destruct (num_gt a 200) eqn:Hgt;
      [apply num_gt_spec in Hgt | apply num_gt_false in Hgt];
      (split; [| split]); try (intros Ha; specialize (Htotal Ha));
      split; intros Hgoal; try discriminate Hgoal; try reflexivity; tauto. }
  split.
  - exists (priority_of (Order.amount o)).
    split; [apply set_order_priority_run |].
    destruct (Hprio (Order.amount o)) as (Hhigh & Hlow & Hle).
    split; [exact Hhigh |]. split; [exact Hlow |]. split; [exact Hle |].
    intros q Hq Heq. apply Hlow. rewrite Hq. unfold lt_num.
    apply Qle_not_lt. rewrite Heq. apply Qle_refl.
  - intros o1 w1 Hstage o'. subst o'.
    pose proof (frame_type_specific_stage user_id (o, w)) as Hframe.
    rewrite Hstage in Hframe. destruct Hframe as (_ & _ & Ham & _).
    simpl in Ham. rewrite process_order_stages.
    rewrite (bind_Return _ _ _ _ _ Hstage).
    rewrite (bind_Return _ _ _ _ _ (set_order_priority_run o1 w1)).
    set (o2 := Order.set_priority _ o1).
    destruct (update_order_status (Order.id o2) (Order.status o2)
                (Order.priority o2) (ext w1)) as [r e2] eqn:Hupd.
    rewrite (update_order_status_run _ _ _ _ Hupd).
    destruct r as [b | []]; simpl; rewrite Ham; apply Hprio.
Qed.

(** C3: a persistence error overwrites the status.  When the type-specific
    stage has returned with any status at all and the persistence call then
    raises [DatabaseException], the pipeline returns normally, the order's
    status is "db_error", and its priority is the one the priority stage
    assigned. *)
Theorem db_error_overwrites_status (user_id : Z) (o o1 : Order.t)
    (w w1 : World W) (e2 : W) :
  type_specific_stage user_id (o, w) = (Return tt, (o1, w1)) ->
  let o2 := Order.set_priority (priority_of (Order.amount o1)) o1 in
  update_order_status (Order.id o2) (Order.status o2) (Order.priority o2)
    (ext w1) = (Raise DatabaseException, e2) ->
  exists o' w',
    _process_order user_id (o, w) = (Return tt, (o', w')) /\
    Order.status o' = "db_error" /\
    Order.priority o' = Order.priority o2 /\
    Order.priority o' = priority_of (Order.amount o) /\
    _update_order_status (o2, w1) = (Return tt, (o', w')).
Proof.
  intros Hstage o2 Hupd.
  pose proof (update_order_status_run o2 w1 _ _ Hupd) as Hrun.
  cbv zeta in Hrun. simpl in Hrun.
  eexists _, _. rewrite process_order_stages.
  rewrite (bind_Return _ _ _ _ _ Hstage).
  rewrite (bind_Return _ _ _ _ _ (set_order_priority_run o1 w1)).
  fold o2. split; [exact Hrun |]. repeat split; [| exact Hrun].
  pose proof (frame_type_specific_stage user_id (o, w)) as Hframe.
  rewrite Hstage in Hframe. destruct Hframe as (_ & _ & Ham & _).
  simpl in *. rewrite Ham. reflexivity.
Qed.

(** C9: the boolean result of [update_order_status] is ignored.  When the
    call returns, with [False] as well as with [True], the order is left as
    it was; the status changes in this step only if the call raised
    [DatabaseException]. *)
Theorem update_result_ignored (o : Order.t) (w : World W) (r : outcome bool)
    (e' : W) :
  update_order_status (Order.id o) (Order.status o) (Order.priority o) (ext w)
    = (r, e') ->
  let w' := after_call w e'
              (CallUpdate (Order.id o) (Order.status o) (Order.priority o)) in
  (r = Return false -> _update_order_status (o, w) = (Return tt, (o, w'))) /\
  (forall b, r = Return b -> _update_order_status (o, w) = (Return tt, (o, w'))) /\
  (Order.status (fst (snd (_update_order_status (o, w)))) <> Order.status o ->
   r = Raise DatabaseException).
Proof.
  intros Hupd w'. subst w'.
  rewrite (update_order_status_run o w r e' Hupd).
  repeat split.
  - intros ->. reflexivity.
  - intros b ->. reflexivity.
  - destruct r as [b | []]; simpl; intros Hne; congruence.
Qed.

(** C10: the pipeline's frame.  However [_process_order] ends, the order's
    id, type, amount and flag are what they were; only status and priority
    are ever assigned. *)
Theorem pipeline_keeps_constructor_fields (user_id : Z) (o : Order.t)
    (w : World W) :
  let o' := fst (snd (_process_order user_id (o, w))) in
  Order.id o' = Order.id o /\ Order.type o' = Order.type o /\
  Order.amount o' = Order.amount o /\ Order.flag o' = Order.flag o.
Proof. exact (frame_process_order user_id (o, w)). Qed.

(** C6: the exported file.  When no file operation of the export fails, the
    file named after the user id and the clock holds the header row, then one
    data row with the order's id, type, amount, lowercase flag, and the status
    and priority the order has when the stage starts ("new" and "low" for an
    order as constructed), then the note row exactly when [amount > 150]; and
    the stage returns with status "exported". *)
Theorem export_file_contents (user_id : Z) (o : Order.t) (w : World W)
    (t : Z) (e1 : W) :
  time_time (ext w) = (t, e1) ->
  let name := csv_name user_id t in
  (forall op, op ∈ export_ops name o -> io_fault op e1 = None) ->
  let header :=
    [CStr "ID"; CStr "Type"; CStr "Amount"; CStr "Flag"; CStr "Status";
     CStr "Priority"] in
  let data_row st pr :=
    [CInt (Order.id o); CStr (Order.type o); CNum (Order.amount o);
     CStr (if Order.flag o then "true" else "false"); CStr st; CStr pr] in
  let note :=
    [CStr ""; CStr ""; CStr ""; CStr ""; CStr "Note"; CStr "High value order"] in
  exists w',
    _process_type_a_order user_id (o, w) =
      (Return tt, (Order.set_status "exported" o, w')) /\
    ((150 < Order.amount o)%num ->
     files w' !! name =
       Some [header; data_row (Order.status o) (Order.priority o); note]) /\
    (~ (150 < Order.amount o)%num ->
     files w' !! name =
       Some [header; data_row (Order.status o) (Order.priority o)]) /\
    (Order.status o = "new" -> Order.priority o = "low" ->
     exists rest,
       files w' !! name = Some (header :: data_row "new" "low" :: rest)) /\
    (forall other, other <> name -> files w' !! other = files w !! other).
Proof.
  intros Htime name Hok header data_row note.
  rewrite (process_type_a_order_exported user_id o w t e1 Htime Hok).
  eexists. split; [reflexivity |]. simpl. fold name.
  assert (Hdata : csv_data o = data_row (Order.status o) (Order.priority o)).
  { unfold csv_data, data_row. rewrite lower_str_bool. reflexivity. }
  rewrite Hdata. repeat split.
  - intros Hhigh. apply num_gt_spec in Hhigh. rewrite Hhigh.
    apply lookup_insert_eq.
  - intros Hlow. apply num_gt_false in Hlow. rewrite Hlow.
    apply lookup_insert_eq.
  - intros -> ->. eexists. rewrite lookup_insert_eq. reflexivity.
  - intros other Hother. apply lookup_insert_ne. congruence.
Qed.

End Stage_properties.

(** ** Verified properties of [process_orders] *)

Section Batch_properties.
Context {W : Type} `{!DatabaseService W, !APIClient W, !Runtime W}.

Lemma fetched_orders_nil (fetched : Fetched) :
  fetched_orders fetched = [] <-> listed fetched = [].
Proof.
  unfold fetched_orders, as_list. destruct (listed fetched); simpl; split;
    congruence.
Qed.

Lemma process_orders_fetched (user_id : Z) (w : World W)
    (fetched : Fetched) (e1 : W) :
  get_orders_by_user user_id (ext w) = (Return fetched, e1) ->
  fetched_orders fetched <> [] ->
  process_orders user_id w =
  match for_order_in (listed fetched) user_id (objects fetched)
          (after_call w e1 (CallGetOrders user_id)) with
  | (Return _, objs', w') => (true, as_list objs' (listed fetched), w')
  | (Raise _, objs', w') => (false, as_list objs' (listed fetched), w')
  end.
Proof.
  intros Hfetch Hne. unfold process_orders, db_get_orders_by_user.
  rewrite Hfetch. rewrite fetched_orders_nil in Hne.
  destruct (listed fetched); [congruence | reflexivity].
Qed.

Lemma process_orders_true (user_id : Z) (w : World W) (fetched : Fetched)
    (e1 : W) :
  get_orders_by_user user_id (ext w) = (Return fetched, e1) ->
  fetched_orders fetched <> [] ->
  classified_faults_only ->
  exists objs' w',
    process_orders user_id w = (true, as_list objs' (listed fetched), w') /\
    for_order_in (listed fetched) user_id (objects fetched)
      (after_call w e1 (CallGetOrders user_id))
      = (Return tt, objs', w').
Proof.
  intros Hfetch Hne Hok. rewrite (process_orders_fetched _ _ _ _ Hfetch Hne).
  destruct (for_order_in_returns user_id (listed fetched) (objects fetched)
              (after_call w e1 (CallGetOrders user_id)) Hok)
    as (objs' & w' & Hloop).
  rewrite Hloop. eauto.
Qed.

(** C8: fetch failure and empty result.  When [get_orders_by_user] raises,
    whatever the exception, or returns an empty list, [process_orders]
    returns [False]; the only collaborator call made is the fetch itself: no
    order is processed, no status persisted, no file written. *)
Theorem fetch_failed_or_empty (user_id : Z) (w : World W)
    (r : outcome Fetched) (e1 : W) :
  get_orders_by_user user_id (ext w) = (r, e1) ->
  (exists fetched, r = Return fetched /\ fetched_orders fetched = []) \/
  (exists e, r = Raise e) ->
  process_orders user_id w =
  (false, [], mkWorld e1 (files w) (calls w ++ [CallGetOrders user_id])).
Proof.
  intros Hfetch Hr. unfold process_orders, db_get_orders_by_user.
  rewrite Hfetch. destruct Hr as [(fetched & -> & Hnil) | [e ->]];
    [| reflexivity].
  apply fetched_orders_nil in Hnil. rewrite Hnil. reflexivity.
Qed.

(** C1 (as the code has it): containment of the classified faults.  When the
    fetch returns a non-empty list and the collaborators raise only the
    exception class of their interface ([IOError] from file operations,
    [APIException] from [call_api], [DatabaseException] from
    [update_order_status]) and "success" responses carry a number, then
    [process_orders] returns [True] having run every order's pipeline to its
    end, in fetch order: the persistence calls made are one per order, in the
    order of the list, and every order ends in a terminal status. *)
Theorem classified_faults_are_contained (user_id : Z) (w : World W)
    (fetched : Fetched) (e1 : W) :
  get_orders_by_user user_id (ext w) = (Return fetched, e1) ->
  let orders := fetched_orders fetched in
  orders <> [] ->
  classified_faults_only ->
  exists orders' w',
    process_orders user_id w = (true, orders', w') /\
    update_ids (calls w') = update_ids (calls w) ++ map Order.id orders /\
    map Order.id orders' = map Order.id orders /\
    Forall (fun o => Order.status o ∈ terminal_statuses) orders'.
Proof.
  intros Hfetch orders Hne Hok. subst orders.
  destruct (process_orders_true _ _ _ _ Hfetch Hne Hok)
    as (objs' & w' & Hrun & Hloop).
  exists (as_list objs' (listed fetched)), w'. split; [exact Hrun |].
  apply for_order_in_returned in Hloop as (Hterm & Hframe & Hids).
  fold (fetched_orders fetched) in Hframe, Hids.
  repeat split.
  - rewrite Hids. unfold after_call. simpl. rewrite update_ids_app. simpl.
    rewrite app_nil_r. reflexivity.
  - clear -Hframe. induction Hframe as [| o o' l l' [(Hid & _) _] _ IH]; simpl.
    + reflexivity.
    + rewrite Hid, IH. reflexivity.
  - exact Hterm.
Qed.

(** C4 (as the code has it): terminal statuses.  Whenever [process_orders]
    returns [True] for a fetched batch, every order of the batch has one of
    the enumerated terminal statuses, and none is left at "new". *)
Theorem true_means_all_terminal (user_id : Z) (w w' : World W)
    (fetched : Fetched) (orders' : list Order.t) (e1 : W) :
  get_orders_by_user user_id (ext w) = (Return fetched, e1) ->
  process_orders user_id w = (true, orders', w') ->
  let orders := fetched_orders fetched in
  orders <> [] /\ length orders' = length orders /\
  Forall (fun o => Order.status o ∈ terminal_statuses /\
                   Order.status o <> "new") orders'.
Proof.
  intros Hfetch Hrun orders. subst orders.
  assert (Hne : fetched_orders fetched <> []).
  { intros Hnil. apply fetched_orders_nil in Hnil.
    unfold process_orders, db_get_orders_by_user in Hrun.
    rewrite Hfetch, Hnil in Hrun. discriminate Hrun. }
  rewrite (process_orders_fetched _ _ _ _ Hfetch Hne) in Hrun.
  destruct (for_order_in (listed fetched) user_id _ _)
    as [[[[] | e] os] w2] eqn:Hloop; [| discriminate Hrun].
  injection Hrun as <- <-.
  apply for_order_in_returned in Hloop as (Hterm & Hframe & _).
  split; [exact Hne |]. split.
  - symmetry. eapply Forall2_length. exact Hframe.
  - clear -Hterm. induction Hterm as [| o l Ho _ IH]; constructor;
      [split; [exact Ho | apply not_new_of_terminal, Ho] | exact IH].
Qed.

(** C7: a failed export is local.  When a file operation of the export
    fails with [IOError] (opening, writing a row, or closing), the stage
    returns normally with status "export_failed" and nothing else changed in
    the order; and such failures do not make [process_orders] return [False]:
    with collaborators that raise their own exception class only, it returns
    [True] for every non-empty batch, also when every [open] is forced to
    fail, and then the type-A orders end as "export_failed" (or "db_error"
    when persisting that status fails). *)
Theorem export_failure_is_local :
  (forall (user_id : Z) (o : Order.t) (w : World W) (t : Z) (e1 : W),
     time_time (ext w) = (t, e1) ->
     (exists op, op ∈ export_ops (csv_name user_id t) o /\
                 io_fault op e1 = Some IOError) ->
     (forall op e, op ∈ export_ops (csv_name user_id t) o ->
                   io_fault op e1 = Some e -> e = IOError) ->
     exists w',
       _process_type_a_order user_id (o, w) =
         (Return tt, (Order.set_status "export_failed" o, w')) /\
       calls w' = calls w) /\
  (forall (user_id : Z) (w : World W) (fetched : Fetched) (e1 : W),
     get_orders_by_user user_id (ext w) = (Return fetched, e1) ->
     let orders := fetched_orders fetched in
     orders <> [] -> classified_faults_only ->
     exists orders' w',
       process_orders user_id w = (true, orders', w') /\
       ((forall name (e : W), io_fault (OpOpen name) e = Some IOError) ->
        Forall2 (fun o o' => Order.type o = "A" ->
                   Order.status o' = "export_failed" \/
                   Order.status o' = "db_error") orders orders')).
Proof.
  split.
  - intros user_id o w t e1 Htime (op & Hop & Hfault) Hio.
    destruct (process_type_a_order_outcome user_id o w t e1 Htime Hio)
      as (st & fs & Hrun & [(-> & Hnone) | (-> & _)]).
    + rewrite (Hnone op Hop) in Hfault. discriminate Hfault.
    + eexists. split; [exact Hrun | reflexivity].
  - intros user_id w fetched e1 Hfetch orders Hne Hok. subst orders.
    destruct (process_orders_true _ _ _ _ Hfetch Hne Hok)
      as (objs' & w' & Hrun & Hloop).
    exists (as_list objs' (listed fetched)), w'. split; [exact Hrun |].
    intros Hopen. apply Forall2_as_list. intros r Hr.
    refine (proj1 (proj2 (for_order_in_objects
              (fun o o' => Order.type o = "A" ->
                 Order.status o' = "export_failed" \/
                 Order.status o' = "db_error")
              user_id _ _ _ _ _ _ _
              (fun r => same_fields_refl (objects fetched r)) Hloop)) r Hr).
    intros o0 o w0 o' w0' (_ & Hty & _) Hone Htype.
    apply (process_order_open_fails user_id o o' w0 w0'); auto.
    + apply Hok.
    + congruence.
Qed.

End Batch_properties.

(** ** The properties at work on concrete scenarios *)

Lemma outage_classified : classified_faults_only (W := Outage).
Proof.
  repeat split.
  - intros i st pr w w' e. simpl. destruct (db_down w); congruence.
  - intros i w w' e. simpl. unfold success. destruct (api_down w); congruence.
  - intros i w w' r. simpl. unfold success.
    destruct (api_down w); intros [= <- _] _; discriminate.
  - intros op w e. simpl. destruct (disk_full w); congruence.
Qed.

(** Type B, payload 60, amount 150, flag unset: "error". *)
Lemma type_b_status_rules_witness :
  let o := Order.init 1 "B" 150 false in
  let w := fresh (sc_single o (success (Some 60%num)) (Return true) no_io_fault) in
  _process_type_b_order (o, w) =
  (Return tt, (Order.set_status "error" o, after_call w (ext w) (CallApi 1))).
Proof.
  intros o w.
  assert (Hcall : call_api (Order.id o) (ext w) = (success (Some 60%num), ext w))
    by reflexivity.
  destruct (type_b_status_rules o w (success (Some 60%num)) (ext w) Hcall)
    as (Hsuccess & _).
  destruct (Hsuccess _ 60%num eq_refl eq_refl eq_refl)
    as (st & Hrun & _ & _ & _ & Herror & _).
  assert (Hst : st = "error").
  { apply Herror; [discriminate | discriminate |].
    repeat split; vm_compute; congruence. }
  rewrite Hrun, Hst. reflexivity.
Defined.

(** Amount 250 after a type-C stage: "high". *)
Lemma priority_assignment_witness :
  let o := Order.init 1 "C" 250 true in
  let w := fresh (sc_single o (success (Some 50%num)) (Return true) no_io_fault) in
  Order.priority (fst (snd (_process_order 1 (o, w)))) = "high".
Proof.
  intros o w. destruct (priority_assignment 1 o w) as (_ & Hpipeline).
  destruct (Hpipeline (Order.set_status "completed" o) w ltac:(reflexivity))
    as ((_ & Hhigh) & _).
  apply Hhigh. vm_compute. reflexivity.
Defined.

(** The persistence call raises [DatabaseException] after a completed
    type-C stage: "db_error", priority kept. *)
Lemma db_error_overwrites_status_witness :
  let o := Order.init 1 "C" 250 true in
  let w := fresh (sc_single o (success (Some 50%num)) (Raise DatabaseException)
                    no_io_fault) in
  exists o' w',
    _process_order 1 (o, w) = (Return tt, (o', w')) /\
    Order.status o' = "db_error" /\ Order.priority o' = "high".
Proof.
  intros o w.
  destruct (db_error_overwrites_status 1 o (Order.set_status "completed" o)
              w w (ext w) ltac:(reflexivity) ltac:(reflexivity))
    as (o' & w' & Hrun & Hstatus & Hprio & _ & _).
  exists o', w'. repeat split; [exact Hrun | exact Hstatus |].
  rewrite Hprio. reflexivity.
Defined.

(** The persistence call returns [False]: the status stays "completed". *)
Lemma update_result_ignored_witness :
  let o := Order.set_status "completed" (Order.init 1 "C" 50 true) in
  let w := fresh (sc_single o (success (Some 50%num)) (Return false)
                    no_io_fault) in
  _update_order_status (o, w) =
  (Return tt, (o, after_call w (ext w) (CallUpdate 1 "completed" "low"))).
Proof.
  intros o w.
  assert (Hupd : update_order_status (Order.id o) (Order.status o)
                   (Order.priority o) (ext w) = (Return false, ext w))
    by reflexivity.
  destruct (update_result_ignored o w (Return false) (ext w) Hupd)
    as (Hfalse & _ & _).
  exact (Hfalse (eq_refl (Return false))).
Defined.

(** Type A, amount 200, nothing fails: header, data row, note row. *)
Lemma export_file_contents_witness :
  let o := Order.init 1 "A" 200 false in
  let w := fresh (sc_single o (success (Some 50%num)) (Return true) no_io_fault) in
  exists w',
    _process_type_a_order 1 (o, w) =
      (Return tt, (Order.set_status "exported" o, w')) /\
    files w' !! "orders_type_A_1_1700000000.csv" =
    Some [[CStr "ID"; CStr "Type"; CStr "Amount"; CStr "Flag"; CStr "Status";
           CStr "Priority"];
          [CInt 1; CStr "A"; CNum 200; CStr "false"; CStr "new"; CStr "low"];
          [CStr ""; CStr ""; CStr ""; CStr ""; CStr "Note";
           CStr "High value order"]].
Proof.
  intros o w.
  assert (Htime : time_time (ext w) = (1700000000, ext w)) by reflexivity.
  destruct (export_file_contents 1 o w 1700000000 (ext w) Htime)
    as (w' & Hrun & Hhigh & _).
  - intros op _. reflexivity.
  - exists w'. split; [exact Hrun |]. apply Hhigh. vm_compute. reflexivity.
Defined.

(** Fetch returns the empty list: [False], and only the fetch was called. *)
Lemma fetch_failed_or_empty_witness :
  process_orders 1 (fresh (sc_fetch (Return (distinct [])))) =
  (false, [], mkWorld (sc_fetch (Return (distinct []))) ∅ [CallGetOrders 1]).
Proof.
  assert (Hfetch : get_orders_by_user 1
                     (ext (fresh (sc_fetch (Return (distinct [])))))
                   = (Return (distinct []), sc_fetch (Return (distinct []))))
    by reflexivity.
  apply (fetch_failed_or_empty 1 (fresh (sc_fetch (Return (distinct []))))
           (Return (distinct [])) (sc_fetch (Return (distinct []))) Hfetch).
  left. exists (distinct []). split; reflexivity.
Defined.

(** Everything is out of service: [True], four persistence calls in fetch
    order, and four terminal statuses. *)
Lemma classified_faults_are_contained_witness :
  exists orders' w',
    process_orders 1 all_down = (true, orders', w') /\
    update_ids (calls w') = [1; 2; 3; 4] /\
    map Order.id orders' = [1; 2; 3; 4] /\
    Forall (fun o => Order.status o ∈ terminal_statuses) orders'.
Proof.
  assert (Hfetch : get_orders_by_user 1 (ext all_down)
                   = (Return (distinct outage_batch), ext all_down))
    by reflexivity.
  apply (classified_faults_are_contained 1 all_down (distinct outage_batch)
           (ext all_down) Hfetch).
  - discriminate.
  - exact outage_classified.
Defined.

Lemma true_means_all_terminal_witness :
  Forall (fun o => Order.status o ∈ terminal_statuses /\ Order.status o <> "new")
    (snd (fst (process_orders 1 all_down))).
Proof.
  assert (Hfetch : get_orders_by_user 1 (ext all_down)
                   = (Return (distinct outage_batch), ext all_down))
    by reflexivity.
  apply (true_means_all_terminal 1 all_down (snd (process_orders 1 all_down))
           (distinct outage_batch) (snd (fst (process_orders 1 all_down)))
           (ext all_down) Hfetch).
  vm_compute. reflexivity.
Defined.

(** [open] is forced to fail on a type-A order: "export_failed", and the
    batch still returns [True]. *)
Lemma export_failure_is_local_witness :
  let o := Order.init 1 "A" 150 false in
  let w := fresh (sc_single o (success (Some 50%num)) (Return true) open_fails) in
  (exists w',
     _process_type_a_order 1 (o, w) =
       (Return tt, (Order.set_status "export_failed" o, w'))) /\
  (exists orders' w', process_orders 1 all_down = (true, orders', w')).
Proof.
  intros o w. destruct (@export_failure_is_local Scenario _ _ _) as (Hlocal & _).
  destruct (@export_failure_is_local Outage _ _ _) as (_ & Hbatch).
  split.
  - destruct (Hlocal 1 o w 1700000000 (ext w) (eq_refl (1700000000, ext w)))
      as (w' & Hrun & _).
    + exists (OpOpen (csv_name 1 1700000000)). split; [| reflexivity].
      unfold export_ops, export_writes. in_list.
    + intros op e _. simpl. unfold open_fails. destruct op; congruence.
    + exists w'. exact Hrun.
  - destruct (Hbatch 1 all_down (distinct outage_batch) (ext all_down)
                (eq_refl (Return (distinct outage_batch), ext all_down)))
      as (orders' & w' & Hrun & _).
    + discriminate.
    + exact outage_classified.
    + exists orders', w'. exact Hrun.
Defined.

(** *** Where the claims as first stated fail *)

(** C1 as stated fails.  A "success" response without a payload makes the
    comparison in the type-B stage raise [TypeError], which no handler of the
    pipeline catches: [process_orders] returns [False], and the second order
    of the batch is neither processed nor persisted.  The same happens when
    [update_order_status] raises anything but [DatabaseException] on the
    first order. *)
Lemma unclassified_fault_aborts_batch :
  let o1 := Order.init 1 "B" 50 false in
  let o2 := Order.init 2 "C" 50 true in
  let sc := sc_two_orders (success None) in
  let sc' := mkScenario (Return (distinct [o1; o2])) (Raise OtherException)
               (success (Some 60%num)) 1700000000 no_io_fault in
  (get_orders_by_user 1 sc = (Return (distinct [o1; o2]), sc) /\
   process_orders 1 (fresh sc) =
     (false, [o1; o2], mkWorld sc ∅ [CallGetOrders 1; CallApi 1])) /\
  (get_orders_by_user 1 sc' = (Return (distinct [o1; o2]), sc') /\
   process_orders 1 (fresh sc') =
     (false, [Order.set_status "processed" o1; o2],
      mkWorld sc' ∅
        [CallGetOrders 1; CallApi 1; CallUpdate 1 "processed" "low"])).
Proof. repeat split. Qed.

(** C4 as stated fails.  For a non-empty batch, a "success" response without
    a payload, or [call_api] raising anything but [APIException], leaves the
    order at "new" when [process_orders] has returned. *)
Lemma order_left_new :
  let o := Order.init 1 "B" 50 false in
  let sc := sc_single o (success None) (Return true) no_io_fault in
  let sc' := sc_single o (Raise OtherException) (Return true) no_io_fault in
  get_orders_by_user 1 sc = (Return (distinct [o]), sc) /\
  fst (process_orders 1 (fresh sc)) = (false, [o]) /\
  get_orders_by_user 1 sc' = (Return (distinct [o]), sc') /\
  fst (process_orders 1 (fresh sc')) = (false, [o]) /\
  Order.status o = "new" /\
  Order.status o ∉ terminal_statuses.
Proof.
  repeat split. unfold terminal_statuses. simpl.
  rewrite !elem_of_cons, elem_of_nil. intros H.
  repeat destruct H as [H | H]; try discriminate H. exact H.
Qed.

(** C2, as stated, fails twice.  A "success" response need not carry a
    number: with payload [None] the comparison raises [TypeError], and the
    stage leaves the order at status "new", which none of the rules names.
    And with payload 60, amount [nan] and the flag not set, the stage gives
    "error" although the amount is not at least 100. *)
Lemma type_b_rules_fail :
  let o := Order.init 1 "B" 50 false in
  let sc := sc_single o (success None) (Return true) no_io_fault in
  let o2 := Order.init 2 "B" NaN false in
  let sc2 := sc_single o2 (success (Some 60%num)) (Return true) no_io_fault in
  call_api 1 sc = (success None, sc) /\
  _process_type_b_order (o, fresh sc) =
    (Raise TypeError, (o, mkWorld sc ∅ [CallApi 1])) /\
  Order.status o = "new" /\
  call_api 2 sc2 = (success (Some 60%num), sc2) /\
  _process_type_b_order (o2, fresh sc2) =
    (Return tt, (Order.set_status "error" o2, mkWorld sc2 ∅ [CallApi 2])) /\
  ~ (100 <= Order.amount o2)%num.
Proof.
  repeat split. intros H. exact H.
Qed.

(** ** Further properties of the stages *)

Section More_stage_properties.
Context {W : Type} `{!DatabaseService W, !APIClient W, !Runtime W}.

(** What an export does to the world, however it ends: the clock is read,
    no collaborator is called, and no file but the export file is touched;
    that file, once opened, holds a prefix of the export's rows. *)
Lemma process_type_a_order_world (user_id : Z) (o : Order.t) (w : World W)
    (t : Z) (e1 : W) :
  time_time (ext w) = (t, e1) ->
  exists r st fs,
    _process_type_a_order user_id (o, w) =
      (r, (Order.set_status st o, mkWorld e1 fs (calls w))) /\
    (r = Return tt /\ st ∈ ["exported"; "export_failed"] \/
     (exists e, r = Raise e /\ is_IOError e = false) /\ st = Order.status o) /\
    (forall other, other <> csv_name user_id t ->
                   fs !! other = files w !! other) /\
    (io_fault (OpOpen (csv_name user_id t)) e1 <> None /\ fs = files w /\
     (r = Return tt -> st = "export_failed") \/
     io_fault (OpOpen (csv_name user_id t)) e1 = None /\
     exists rows, fs !! csv_name user_id t = Some rows /\
                  rows `prefix_of` export_rows o /\
                  (r = Return tt -> st = "exported" -> rows = export_rows o)).
Proof.
  intros Htime. run_export. rewrite Htime. simpl.
  set (f := csv_name user_id t). unfold export_rows.
  assert (Hsame : forall st, Order.status o = st -> Order.set_status st o = o).
  { intros st <-. destruct o. reflexivity. }
  destruct (num_gt (Order.amount o) 150) eqn:Hhigh;
  repeat match goal with
    | |- context [match io_fault ?op e1 with _ => _ end] =>
        let E := fresh "E" in
        destruct (io_fault op e1) as [? |] eqn:E; simpl
    | |- context [is_IOError ?e] =>
        let E := fresh "E" in destruct (is_IOError e) eqn:E; simpl
    | |- context [num_gt (Order.amount o) 150] => rewrite Hhigh; simpl
    end;
  rewrite ?export_rows_file; simpl.
  all: first
    [ eexists (Return tt), _, _; split; [reflexivity |]
    | eexists (Raise _), (Order.status o), _;
      split; [rewrite (Hsame _ eq_refl); reflexivity |] ].
  all: split;
    [ first [ left; split; [reflexivity | in_list]
            | right; split; [eexists; split; [reflexivity | assumption]
                            | reflexivity] ] |].
  all: split;
    [ intros other Hother;
      rewrite ?lookup_insert_ne by congruence; reflexivity |].
  all: first
    [ left; split; [discriminate |]; split; [reflexivity |];
      intros Hr; first [discriminate Hr | reflexivity]
    | right; split; [reflexivity |];
      eexists; split; [apply lookup_insert_eq |];
      split;
        [ first [ eexists []; reflexivity
                | eexists [_]; reflexivity
                | eexists [_; _]; reflexivity
                | eexists [_; _; _]; reflexivity ]
        | intros Hr Hst; first [discriminate Hr | discriminate Hst | reflexivity] ] ].
Qed.



Lemma priority_of_tier (a : num) : priority_of a = "high" \/ priority_of a = "low".
Proof. unfold priority_of. destruct (num_gt a 200); auto. Qed.

(** What the type-specific stage does, however it ends: at most one remote
    call, made for type "B" only; files touched for type "A" only, and then
    no file but an export file of this user; a status of the stage when it
    returns, the order untouched when it raises. *)
Lemma type_specific_stage_world (user_id : Z) (o : Order.t) (w : World W) :
  exists r st w1,
    type_specific_stage user_id (o, w) = (r, (Order.set_status st o, w1)) /\
    calls w1 = calls w ++
      (if String.eqb (Order.type o) "B" then [CallApi (Order.id o)] else []) /\
    (r = Return tt /\ st ∈ stage_statuses \/
     (exists e, r = Raise e) /\ st = Order.status o) /\
    (Order.type o <> "A" -> files w1 = files w) /\
    (forall other, (forall t, other <> csv_name user_id t) ->
                   files w1 !! other = files w !! other).
Proof.
  assert (Hsame : forall st, Order.status o = st -> Order.set_status st o = o).
  { intros st <-. destruct o. reflexivity. }
  unfold type_specific_stage, bind, get_order. simpl.
  destruct (String.eqb (Order.type o) "A") eqn:HA.
  { apply String.eqb_eq in HA.
    assert (HB : String.eqb (Order.type o) "B" = false) by (rewrite HA; reflexivity).
    rewrite HB, app_nil_r.
    destruct (time_time (ext w)) as [t e1] eqn:Htime.
    destruct (process_type_a_order_world user_id o w t e1 Htime)
      as (r & st & fs & Hrun & Hst & Hother & _).
    exists r, st, (mkWorld e1 fs (calls w)).
    split; [exact Hrun |]. split; [reflexivity |]. split; [| split].
    - destruct Hst as [(-> & Hin) | ((e & -> & _) & ->)].
      + left. split; [reflexivity |]. unfold stage_statuses.
        split_in Hin; in_list.
      + right. eauto.
    - intros Hne. congruence.
    - intros other Hname. apply Hother, Hname. }
  apply String.eqb_neq in HA.
  destruct (String.eqb (Order.type o) "B") eqn:HB.
  { destruct (call_api (Order.id o) (ext w)) as [r e'] eqn:Hcall.
    rewrite (process_type_b_order_run o w r e' Hcall).
    destruct r as [resp | e].
    - destruct (String.eqb (APIResponse.status resp) "success").
      + destruct (APIResponse.data resp) as [d |].
        * eexists _, _, _. split; [reflexivity |]. split; [reflexivity |].
          split; [| split; [reflexivity | reflexivity]].
          left. split; [reflexivity |]. unfold stage_statuses.
          destruct (num_ge d 50 && num_lt (Order.amount o) 100); [in_list |].
          destruct (num_lt d 50 || Order.flag o); in_list.
        * exists (Raise TypeError), (Order.status o), (after_call w e' (CallApi (Order.id o))).
          rewrite (Hsame _ eq_refl). repeat split; eauto.
      + eexists _, _, _. split; [reflexivity |]. split; [reflexivity |].
        split; [| split; [reflexivity | reflexivity]].
        left. split; [reflexivity |]. unfold stage_statuses. in_list.
    - destruct (is_APIException e) eqn:He.
      + eexists _, _, _. split; [reflexivity |]. split; [reflexivity |].
        split; [| split; [reflexivity | reflexivity]].
        left. split; [reflexivity |]. unfold stage_statuses. in_list.
      + exists (Raise e), (Order.status o), (after_call w e' (CallApi (Order.id o))).
        rewrite (Hsame _ eq_refl). repeat split; eauto. }
  rewrite app_nil_r.
  destruct (String.eqb (Order.type o) "C").
  - rewrite process_type_c_order_run.
    eexists _, _, _. split; [reflexivity |]. split; [reflexivity |].
    split; [| split; [reflexivity | reflexivity]].
    left. split; [reflexivity |]. unfold stage_statuses.
    destruct (Order.flag o); in_list.
  - unfold set_status. simpl.
    eexists _, _, _. split; [reflexivity |]. split; [reflexivity |].
    split; [| split; [reflexivity | reflexivity]].
    left. split; [reflexivity |]. unfold stage_statuses. in_list.
Qed.

(** What one order's pipeline does to the world, however it ends. *)
Lemma process_order_world (user_id : Z) (o : Order.t) (w : World W) :
  exists r o' w' upd,
    _process_order user_id (o, w) = (r, (o', w')) /\
    calls w' = calls w ++
      (if String.eqb (Order.type o) "B" then [CallApi (Order.id o)] else []) ++
      upd /\
    ((upd = [] /\ exists e, r = Raise e) \/
     exists st,
       upd = [CallUpdate (Order.id o) st (priority_of (Order.amount o))] /\
       st ∈ stage_statuses /\
       (r = Return tt -> Order.status o' = st \/ Order.status o' = "db_error")) /\
    (Order.type o <> "A" -> files w' = files w) /\
    (forall other, (forall t, other <> csv_name user_id t) ->
                   files w' !! other = files w !! other).
Proof.
  destruct (type_specific_stage_world user_id o w)
    as (r1 & st & w1 & Hstage & Hcalls & Hst & HnotA & Hother).
  rewrite process_order_stages.
  destruct Hst as [(-> & Hin) | ((e & ->) & ->)].
  - rewrite (bind_Return _ _ _ _ _ Hstage).
    rewrite (bind_Return _ _ _ _ _ (set_order_priority_run _ w1)).
    set (o2 := Order.set_priority _ _).
    destruct (update_order_status (Order.id o2) (Order.status o2)
                (Order.priority o2) (ext w1)) as [r e2] eqn:Hupd.
    rewrite (update_order_status_run _ _ _ _ Hupd). cbv zeta.
    set (w2 := after_call w1 e2 _).
    assert (Hw2 : calls w2 = calls w ++
              (if String.eqb (Order.type o) "B" then [CallApi (Order.id o)]
               else []) ++
              [CallUpdate (Order.id o) st (priority_of (Order.amount o))]).
    { unfold w2, after_call. simpl. rewrite Hcalls, <- app_assoc. reflexivity. }
    assert (Hfiles : files w2 = files w1) by reflexivity.
    assert (Hrest :
      (Order.type o <> "A" -> files w2 = files w) /\
      (forall other, (forall t, other <> csv_name user_id t) ->
                     files w2 !! other = files w !! other)).
    { rewrite Hfiles. split; assumption. }
    destruct r as [b | e]; [| destruct (is_DatabaseException e)].
    + exists (Return tt), o2, w2,
        [CallUpdate (Order.id o) st (priority_of (Order.amount o))].
      split; [reflexivity |]. split; [exact Hw2 |]. split; [| exact Hrest].
      right. exists st. repeat split; auto.
    + exists (Return tt), (Order.set_status "db_error" o2), w2,
        [CallUpdate (Order.id o) st (priority_of (Order.amount o))].
      split; [reflexivity |]. split; [exact Hw2 |]. split; [| exact Hrest].
      right. exists st. repeat split; auto.
    + exists (Raise e), o2, w2,
        [CallUpdate (Order.id o) st (priority_of (Order.amount o))].
      split; [reflexivity |]. split; [exact Hw2 |]. split; [| exact Hrest].
      right. exists st. repeat split; auto.
  - unfold bind. rewrite Hstage.
    eexists _, _, _, []. split; [reflexivity |]. rewrite app_nil_r.
    split; [exact Hcalls |]. split; [left; eauto |]. split; assumption.
Qed.


Lemma api_ids_app (cs ds : list call) :
  api_ids (cs ++ ds) = api_ids cs ++ api_ids ds.
Proof. apply omap_app. Qed.

(** The pipeline once the type-specific stage has returned. *)
Lemma process_order_run (user_id : Z) (o o1 : Order.t) (w w1 : World W)
    (r : outcome bool) (e2 : W) :
  type_specific_stage user_id (o, w) = (Return tt, (o1, w1)) ->
  let o2 := Order.set_priority (priority_of (Order.amount o1)) o1 in
  update_order_status (Order.id o2) (Order.status o2) (Order.priority o2)
    (ext w1) = (r, e2) ->
  let w2 := after_call w1 e2
              (CallUpdate (Order.id o2) (Order.status o2) (Order.priority o2)) in
  _process_order user_id (o, w) =
  match r with
  | Return _ => (Return tt, (o2, w2))
  | Raise e =>
      if is_DatabaseException e
      then (Return tt, (Order.set_status "db_error" o2, w2))
      else (Raise e, (o2, w2))
  end.
Proof.
  intros Hstage o2 Hupd w2. rewrite process_order_stages.
  rewrite (bind_Return _ _ _ _ _ Hstage).
  rewrite (bind_Return _ _ _ _ _ (set_order_priority_run o1 w1)).
  exact (update_order_status_run o2 w1 r e2 Hupd).
Qed.

(** X1: the flag-completion pipeline.  A type-"C" order makes exactly one
    collaborator call, the persistence of "completed" (flag set) or
    "in_progress" (flag not set) with the priority tier of its amount; no
    file is touched; the order ends with that status and priority, or with
    "db_error" when the call raises [DatabaseException]; any other exception
    of the call escapes, the order already carrying the new status. *)
Theorem type_c_pipeline (user_id : Z) (o : Order.t) (w : World W)
    (r : outcome bool) (e' : W) :
  Order.type o = "C" ->
  let st := if Order.flag o then "completed" else "in_progress" in
  let pr := if decide (200 < Order.amount o)%num then "high" else "low" in
  update_order_status (Order.id o) st pr (ext w) = (r, e') ->
  let o1 := Order.mk (Order.id o) "C" (Order.amount o) (Order.flag o) st pr in
  let w' := mkWorld e' (files w) (calls w ++ [CallUpdate (Order.id o) st pr]) in
  _process_order user_id (o, w) =
  match r with
  | Return _ => (Return tt, (o1, w'))
  | Raise DatabaseException => (Return tt, (Order.set_status "db_error" o1, w'))
  | Raise e => (Raise e, (o1, w'))
  end.
Proof.
  intros Hty st pr Hupd o1 w'.
  assert (Hpr : pr = priority_of (Order.amount o)).
  { unfold pr, priority_of. destruct (decide (200 < Order.amount o)%num) as [H | H].
    - apply num_gt_spec in H. rewrite H. reflexivity.
    - apply num_gt_false in H. rewrite H. reflexivity. }
  assert (Hstage : type_specific_stage user_id (o, w)
                   = (Return tt, (Order.set_status st o, w))).
  { unfold type_specific_stage, bind, get_order. simpl. rewrite Hty. simpl.
    apply process_type_c_order_run. }
  rewrite (process_order_run user_id o _ w w r e' Hstage);
    [| simpl; rewrite <- Hpr; exact Hupd].
  simpl. rewrite <- Hpr. unfold Order.set_priority, Order.set_status. simpl.
  rewrite Hty. fold o1. destruct r as [b | []]; reflexivity.
Qed.

(** X2: unrecognised types.  An order whose type is none of "A", "B", "C"
    makes exactly one collaborator call, the persistence of "unknown_type"
    with the priority tier of its amount; no file is touched and the remote
    service is not consulted. *)
Theorem unknown_type_pipeline (user_id : Z) (o : Order.t) (w : World W)
    (r : outcome bool) (e' : W) :
  Order.type o <> "A" -> Order.type o <> "B" -> Order.type o <> "C" ->
  let pr := if decide (200 < Order.amount o)%num then "high" else "low" in
  update_order_status (Order.id o) "unknown_type" pr (ext w) = (r, e') ->
  let o1 := Order.mk (Order.id o) (Order.type o) (Order.amount o)
              (Order.flag o) "unknown_type" pr in
  let w' := mkWorld e' (files w)
              (calls w ++ [CallUpdate (Order.id o) "unknown_type" pr]) in
  _process_order user_id (o, w) =
  match r with
  | Return _ => (Return tt, (o1, w'))
  | Raise DatabaseException => (Return tt, (Order.set_status "db_error" o1, w'))
  | Raise e => (Raise e, (o1, w'))
  end.
Proof.
  intros HA HB HC pr Hupd o1 w'.
  assert (Hpr : pr = priority_of (Order.amount o)).
  { unfold pr, priority_of. destruct (decide (200 < Order.amount o)%num) as [H | H].
    - apply num_gt_spec in H. rewrite H. reflexivity.
    - apply num_gt_false in H. rewrite H. reflexivity. }
  apply String.eqb_neq in HA, HB, HC.
  assert (Hstage : type_specific_stage user_id (o, w)
                   = (Return tt, (Order.set_status "unknown_type" o, w))).
  { unfold type_specific_stage, bind, get_order. simpl.
    rewrite HA, HB, HC. reflexivity. }
  rewrite (process_order_run user_id o _ w w r e' Hstage);
    [| simpl; rewrite <- Hpr; exact Hupd].
  simpl. rewrite <- Hpr. unfold Order.set_priority, Order.set_status. simpl.
  fold o1. destruct r as [b | []]; reflexivity.
Qed.

(** X3: the remote service is consulted for type "B" only.  However an
    order's pipeline ends, it has made exactly one [call_api], with the
    order's id, when the order's type is "B", and none otherwise. *)
Theorem api_called_for_type_b_only (user_id : Z) (o : Order.t) (w : World W) :
  let w' := snd (snd (_process_order user_id (o, w))) in
  (Order.type o = "B" ->
   api_ids (calls w') = api_ids (calls w) ++ [Order.id o]) /\
  (Order.type o <> "B" -> api_ids (calls w') = api_ids (calls w)).
Proof.
  destruct (process_order_world user_id o w)
    as (r & o' & w1 & upd & Hrun & Hcalls & Hupd & _).
  rewrite Hrun. simpl.
  assert (Hnone : api_ids upd = []).
  { destruct Hupd as [(-> & _) | (st & -> & _)]; reflexivity. }
  rewrite Hcalls, !api_ids_app, Hnone, app_nil_r. split.
  - intros ->. reflexivity.
  - intros HB. apply String.eqb_neq in HB. rewrite HB. apply app_nil_r.
Qed.

(** X4: the pipeline's files.  However an order's pipeline ends, it has
    touched no file at all unless the order's type is "A", and then no file
    but one named [orders_type_A_<user_id>_<t>.csv]. *)
Theorem files_touched_for_type_a_only (user_id : Z) (o : Order.t)
    (w : World W) :
  let w' := snd (snd (_process_order user_id (o, w))) in
  (Order.type o <> "A" -> files w' = files w) /\
  (forall other,
     (forall t, other <>
        "orders_type_A_" +:+ str_int user_id +:+ "_" +:+ str_int t +:+ ".csv") ->
     files w' !! other = files w !! other).
Proof.
  destruct (process_order_world user_id o w)
    as (r & o' & w1 & upd & Hrun & _ & _ & HnotA & Hother).
  rewrite Hrun. simpl. split; [exact HnotA | exact Hother].
Qed.

End More_stage_properties.

(** ** Further properties of [process_orders] *)

Section More_batch_properties.
Context {W : Type} `{!DatabaseService W, !APIClient W, !Runtime W}.

(** A relation on worlds that every pipeline maintains, whatever its order
    and outcome, is maintained by the loop, however it ends.  [P] is a
    condition on the orders that depends on id, type, amount and flag only. *)
Lemma for_order_in_maintains (R : World W -> World W -> Prop)
    (P : Order.t -> Prop) (user_id : Z) :
  (forall w, R w w) ->
  (forall w1 w2 w3, R w1 w2 -> R w2 w3 -> R w1 w3) ->
  (forall o o', same_fields o o' -> P o -> P o') ->
  (forall o w, P o -> R w (snd (snd (_process_order user_id (o, w))))) ->
  forall refs objs w,
    (forall r, r ∈ refs -> P (objs r)) ->
    R w (snd (for_order_in refs user_id objs w)).
Proof.
  intros Hrefl Htrans Hfields Hone.
  induction refs as [| r rest IH]; intros objs w HP; simpl.
  - apply Hrefl.
  - assert (Hr : P (objs r)) by (apply HP; in_list).
    specialize (Hone (objs r) w Hr).
    pose proof (frame_process_order user_id (objs r, w)) as Hframe.
    destruct (_process_order user_id (objs r, w)) as [[[] | e] [o1 w1]];
      simpl in *; [| exact Hone].
    eapply Htrans; [exact Hone |]. apply IH. intros r' Hr'.
    destruct (decide (r = r')) as [<- | Hne].
    + rewrite fn_lookup_insert. exact (Hfields _ _ Hframe Hr).
    + rewrite fn_lookup_insert_ne by exact Hne.
      apply HP, list_elem_of_further, Hr'.
Qed.

(** The world [process_orders] leaves: the fetch, then the loop. *)
Lemma process_orders_world (user_id : Z) (w : World W) :
  exists r e1,
    get_orders_by_user user_id (ext w) = (r, e1) /\
    snd (process_orders user_id w) =
    match r with
    | Return fetched =>
        snd (for_order_in (listed fetched) user_id (objects fetched)
               (after_call w e1 (CallGetOrders user_id)))
    | Raise _ => after_call w e1 (CallGetOrders user_id)
    end.
Proof.
  unfold process_orders, db_get_orders_by_user.
  destruct (get_orders_by_user user_id (ext w)) as [r e1]. exists r, e1.
  split; [reflexivity |]. destruct r as [fetched | e]; [| reflexivity].
  fold (after_call w e1 (CallGetOrders user_id)).
  destruct (listed fetched) as [| r rest]; [reflexivity |].
  destruct (for_order_in (r :: rest) user_id _ _) as [[[[] | e] os] w2];
    reflexivity.
Qed.

Lemma Forall_as_list_inv (P : Order.t -> Prop) (objs : nat -> Order.t)
    (refs : list nat) :
  Forall P (as_list objs refs) -> forall r, r ∈ refs -> P (objs r).
Proof.
  induction refs as [| r0 rest IH]; simpl; intros HP r Hr.
  - inversion Hr.
  - inversion HP; subst. apply elem_of_cons in Hr as [-> | Hr]; auto.
Qed.

(** X5: the calls of a batch.  Whatever [process_orders] returns, it has
    fetched exactly once, before anything else; every later call is a remote
    call or a persistence call, and a persistence call carries a status set
    by the type-specific stage and the priority "high" or "low": neither the
    initial "new" nor "db_error" is ever handed to [update_order_status]. *)
Theorem batch_calls (user_id : Z) (w : World W) :
  exists later,
    calls (snd (process_orders user_id w)) =
      calls w ++ CallGetOrders user_id :: later /\
    Forall (fun c =>
              match c with
              | CallGetOrders _ => False
              | CallApi _ => True
              | CallUpdate _ st pr =>
                  st ∈ ["exported"; "export_failed"; "processed"; "pending";
                        "error"; "api_error"; "api_failure"; "completed";
                        "in_progress"; "unknown_type"] /\
                  (pr = "high" \/ pr = "low")
              end) later.
Proof.
  change (exists later,
            calls (snd (process_orders user_id w)) =
              calls w ++ CallGetOrders user_id :: later /\
            Forall pipeline_call later).
  destruct (process_orders_world user_id w) as (r & e1 & _ & ->).
  set (w0 := after_call w e1 (CallGetOrders user_id)).
  assert (Hloop : forall refs objs,
            exists later, calls (snd (for_order_in refs user_id objs w0))
                          = calls w0 ++ later /\ Forall pipeline_call later).
  { intros refs objs.
    apply (for_order_in_maintains
             (fun w1 w2 => exists later, calls w2 = calls w1 ++ later /\
                                         Forall pipeline_call later)
             (fun _ => True)).
    - intros w1. exists []. rewrite app_nil_r. split; [reflexivity | constructor].
    - intros w1 w2 w3 (l1 & H1 & F1) (l2 & H2 & F2). exists (l1 ++ l2).
      rewrite H2, H1, app_assoc. split; [reflexivity |].
      apply Forall_app. split; assumption.
    - auto.
    - intros o w1 _.
      destruct (process_order_world user_id o w1)
        as (r1 & o' & w2 & upd & Hrun & Hcalls & Hupd & _).
      rewrite Hrun. simpl. eexists. split; [exact Hcalls |].
      apply Forall_app. split.
      + destruct (String.eqb (Order.type o) "B"); repeat constructor.
      + destruct Hupd as [(-> & _) | (st & -> & Hst & _)]; [constructor |].
        constructor; [| constructor].
        split; [exact Hst | apply priority_of_tier].
    - auto. }
  destruct r as [fetched | e].
  - destruct (Hloop (listed fetched) (objects fetched)) as (later & Hcalls & Hall).
    exists later. rewrite Hcalls. unfold w0, after_call. simpl.
    rewrite <- app_assoc. split; [reflexivity | exact Hall].
  - exists []. split; [reflexivity | constructor].
Qed.

(** X6: the files of a batch.  Whatever [process_orders] returns, every
    file not named [orders_type_A_<user_id>_<t>.csv] for this user is as it
    was; and when the fetched batch holds no type-"A" order, no file at all
    has been touched. *)
Theorem batch_files (user_id : Z) (w : World W) :
  let w' := snd (process_orders user_id w) in
  (forall other,
     (forall t, other <>
        "orders_type_A_" +:+ str_int user_id +:+ "_" +:+ str_int t +:+ ".csv") ->
     files w' !! other = files w !! other) /\
  (forall fetched e1,
     get_orders_by_user user_id (ext w) = (Return fetched, e1) ->
     let orders := fetched_orders fetched in
     Forall (fun o => Order.type o <> "A") orders ->
     files w' = files w).
Proof.
  intros w'. subst w'.
  destruct (process_orders_world user_id w) as (r & e1 & Hfetch & ->).
  set (w0 := after_call w e1 (CallGetOrders user_id)).
  split.
  - intros other Hname. destruct r as [fetched | e]; [| reflexivity].
    change (files w !! other) with (files w0 !! other).
    apply (for_order_in_maintains
             (fun w1 w2 => files w2 !! other = files w1 !! other)
             (fun _ => True)); auto.
    + intros w1 w2 w3 H1 H2. rewrite H2. exact H1.
    + intros o w1 _.
      destruct (process_order_world user_id o w1)
        as (r1 & o' & w2 & upd & Hrun & _ & _ & _ & Hother).
      rewrite Hrun. apply Hother, Hname.
  - intros fetched e1' Hfetch' orders HnoA. subst orders.
    rewrite Hfetch in Hfetch'. injection Hfetch' as -> <-.
    change (files w) with (files w0).
    apply (for_order_in_maintains
             (fun w1 w2 => files w2 = files w1)
             (fun o => Order.type o <> "A")).
    + reflexivity.
    + intros w1 w2 w3 H1 H2. rewrite H2. exact H1.
    + intros o o' (_ & Hty & _) Ho. congruence.
    + intros o w1 Ho.
      destruct (process_order_world user_id o w1)
        as (r1 & o' & w2 & upd & Hrun & _ & _ & HnotA & _).
      rewrite Hrun. apply HnotA, Ho.
    + exact (Forall_as_list_inv (fun o => Order.type o <> "A") _ _ HnoA).
Qed.



Lemma same_fields_type_b_ids (objs objs1 : nat -> Order.t) (refs : list nat) :
  (forall r, same_fields (objs r) (objs1 r)) ->
  map Order.id (filter (fun o => Order.type o = "B") (as_list objs1 refs)) =
  map Order.id (filter (fun o => Order.type o = "B") (as_list objs refs)).
Proof.
  intros Hsame. induction refs as [| r rest IH]; simpl; [reflexivity |].
  destruct (Hsame r) as (Hid & Hty & _).
  rewrite !filter_cons, Hty.
  destruct (decide (Order.type (objs r) = "B")); simpl; rewrite IH;
    [rewrite Hid |]; reflexivity.
Qed.

Lemma process_order_api (user_id : Z) (o : Order.t) (w : World W) :
  api_ids (calls (snd (snd (_process_order user_id (o, w))))) =
  api_ids (calls w) ++
  map Order.id (filter (fun o => Order.type o = "B") [o]).
Proof.
  destruct (process_order_world user_id o w)
    as (r & o' & w1 & upd & Hrun & Hcalls & Hupd & _).
  rewrite Hrun. simpl.
  assert (Hnone : api_ids upd = []).
  { destruct Hupd as [(-> & _) | (st & -> & _)]; reflexivity. }
  rewrite Hcalls, !api_ids_app, Hnone, app_nil_r. f_equal.
  rewrite filter_cons, filter_nil.
  destruct (decide (Order.type o = "B")) as [HB | HB].
  - rewrite HB. reflexivity.
  - apply String.eqb_neq in HB. rewrite HB. reflexivity.
Qed.

Lemma for_order_in_api (user_id : Z) :
  forall (refs : list nat) (objs objs' : nat -> Order.t) (w w' : World W),
    for_order_in refs user_id objs w = (Return tt, objs', w') ->
    api_ids (calls w') =
    api_ids (calls w) ++
    map Order.id (filter (fun o => Order.type o = "B") (as_list objs refs)).
Proof.
  induction refs as [| r rest IH]; intros objs objs' w w'; simpl.
  - intros [= <- <-]. rewrite app_nil_r. reflexivity.
  - pose proof (process_order_api user_id (objs r) w) as Hone.
    pose proof (frame_process_order user_id (objs r, w)) as Hframe.
    destruct (_process_order user_id (objs r, w)) as [[[] | e] [o1 w1]];
      [| discriminate].
    intros Hrest. simpl in Hone, Hframe.
    rewrite (IH _ _ _ _ Hrest), Hone, <- app_assoc. f_equal.
    rewrite (same_fields_type_b_ids objs).
    + rewrite <- List.map_app. f_equal.
      change (objs r :: as_list objs rest) with ([objs r] ++ as_list objs rest).
      rewrite filter_app. reflexivity.
    + intros r'. destruct (decide (r = r')) as [<- | Hne].
      * rewrite fn_lookup_insert. exact Hframe.
      * rewrite fn_lookup_insert_ne by exact Hne. apply same_fields_refl.
Qed.

(** X7: remote calls of a completed batch.  When [process_orders] returns
    [True], the remote service has been called exactly once for each
    type-"B" order of the fetched list, with that order's id, in fetch order,
    and for no other order. *)
Theorem completed_batch_remote_calls (user_id : Z) (w w' : World W)
    (fetched : Fetched) (orders' : list Order.t) (e1 : W) :
  get_orders_by_user user_id (ext w) = (Return fetched, e1) ->
  process_orders user_id w = (true, orders', w') ->
  let orders := fetched_orders fetched in
  api_ids (calls w') =
  api_ids (calls w) ++ map Order.id (filter (fun o => Order.type o = "B") orders).
Proof.
  intros Hfetch Hrun orders. subst orders.
  assert (Hne : fetched_orders fetched <> []).
  { intros Hnil. apply fetched_orders_nil in Hnil.
    unfold process_orders, db_get_orders_by_user in Hrun.
    rewrite Hfetch, Hnil in Hrun. discriminate Hrun. }
  rewrite (process_orders_fetched _ _ _ _ Hfetch Hne) in Hrun.
  destruct (for_order_in (listed fetched) user_id _ _)
    as [[[[] | e] os] w2] eqn:Hloop; [| discriminate Hrun].
  injection Hrun as <- <-.
  rewrite (for_order_in_api _ _ _ _ _ _ Hloop). unfold after_call. simpl.
  rewrite api_ids_app. simpl. rewrite app_nil_r. reflexivity.
Qed.


End More_batch_properties.

(** ** The export file's name *)

Lemma occurs_uint (c : ascii) (d : Decimal.uint) :
  c = "_"%char \/ c = "."%char -> ~ occurs c (NilEmpty.string_of_uint d).
Proof.
  intros Hc. induction d; simpl; try tauto;
    intros [H | H]; try (apply IHd; exact H);
    destruct Hc as [-> | ->]; discriminate H.
Qed.

Lemma occurs_str_int (c : ascii) (z : Z) :
  c = "_"%char \/ c = "."%char -> ~ occurs c (str_int z).
Proof.
  intros Hc. unfold str_int, NilZero.string_of_int, NilZero.string_of_uint.
  assert (Hu : forall d, ~ occurs c match d with
                                    | Decimal.Nil => "0"
                                    | _ => NilEmpty.string_of_uint d
                                    end).
  { intros d. pose proof (occurs_uint c d Hc) as Hd.
    destruct d; try exact Hd. simpl.
    intros [H | []]. destruct Hc as [-> | ->]; discriminate H. }
  destruct (Z.to_int z) as [d | d]; [apply Hu |].
  simpl. intros [H | H]; [| exact (Hu d H)].
  destruct Hc as [-> | ->]; discriminate H.
Qed.

Lemma str_int_inj (z z' : Z) : str_int z = str_int z' -> z = z'.
Proof.
  unfold str_int. intros Heq. apply DecimalZ.to_int_inj.
  assert (Hnonnil : forall n, Z.to_int n <> Decimal.Pos Decimal.Nil /\
                              Z.to_int n <> Decimal.Neg Decimal.Nil).
  { intros [| p | p]; simpl; split; try discriminate;
      intros [= H]; exact (DecimalPos.Unsigned.to_uint_nonnil p H). }
  destruct (Hnonnil z) as [Hp Hn]. destruct (Hnonnil z') as [Hp' Hn'].
  pose proof (NilZero.isi _ Hp Hn) as H1.
  pose proof (NilZero.isi _ Hp' Hn') as H2.
  rewrite Heq, H2 in H1. injection H1 as H1. symmetry. exact H1.
Qed.

Lemma append_separator_inj (c : ascii) (s1 s2 r1 r2 : string) :
  ~ occurs c s1 -> ~ occurs c s2 ->
  s1 +:+ String c r1 = s2 +:+ String c r2 -> s1 = s2 /\ r1 = r2.
Proof.
  revert s2. induction s1 as [| a s1 IH]; intros [| b s2] H1 H2; simpl.
  - intros [= ->]. auto.
  - intros [= <- _]. exfalso. apply H2. left. reflexivity.
  - intros [= -> _]. exfalso. apply H1. left. reflexivity.
  - intros [= -> Heq]. simpl in H1, H2.
    destruct (IH s2) as [-> ->]; auto.
Qed.

(** X9: export file names do not collide across users or seconds.  The
    name [orders_type_A_<user_id>_<t>.csv] determines both the user id and
    the clock value: two exports write the same file only when they are for
    the same user within the same second. *)
Theorem csv_name_inj (user_id user_id' t t' : Z) :
  csv_name user_id t = csv_name user_id' t' -> user_id = user_id' /\ t = t'.
Proof.
  unfold csv_name. intros Heq. simpl in Heq.
  injection Heq as Heq.
  apply append_separator_inj in Heq as [Huser Hrest];
    [| apply occurs_str_int; auto | apply occurs_str_int; auto].
  change ".csv" with (String "."%char "csv") in Hrest.
  apply append_separator_inj in Hrest as [Ht _];
    [| apply occurs_str_int; auto | apply occurs_str_int; auto].
  split; apply str_int_inj; assumption.
Qed.

(** ** Faults and edge cases *)

Section Faults_and_edges.
Context {W : Type} `{!DatabaseService W, !APIClient W, !Runtime W}.

Lemma type_b_stage (user_id : Z) (o : Order.t) (w : World W) :
  Order.type o = "B" ->
  type_specific_stage user_id (o, w) = _process_type_b_order (o, w).
Proof.
  intros Hty. unfold type_specific_stage, bind, get_order. simpl.
  rewrite Hty. reflexivity.
Qed.

(** X10: a type-"B" fault that is not an [APIException].  When [call_api]
    raises any other exception, or returns a "success" response without a
    payload (the comparison then raises [TypeError]), the exception leaves
    [_process_order]: the order keeps the status and priority it came with,
    and nothing is persisted. *)
Theorem type_b_fault_escapes (user_id : Z) (o : Order.t) (w : World W)
    (r : outcome APIResponse.t) (e' : W) (e : exn) :
  Order.type o = "B" ->
  call_api (Order.id o) (ext w) = (r, e') ->
  (r = Raise e /\ e <> APIException) \/
  (e = TypeError /\
   exists resp, r = Return resp /\ APIResponse.status resp = "success" /\
                APIResponse.data resp = None) ->
  _process_order user_id (o, w) =
  (Raise e, (o, mkWorld e' (files w) (calls w ++ [CallApi (Order.id o)]))).
Proof.
  intros Hty Hcall Hfault.
  assert (Hstage : type_specific_stage user_id (o, w) =
            (Raise e, (o, after_call w e' (CallApi (Order.id o))))).
  { rewrite (type_b_stage _ _ _ Hty), (process_type_b_order_run o w r e' Hcall).
    destruct Hfault as [(-> & Hne) | (-> & resp & -> & Hsucc & Hdata)].
    - destruct e; try reflexivity. congruence.
    - apply String.eqb_eq in Hsucc. rewrite Hsucc, Hdata. reflexivity. }
  rewrite process_order_stages. unfold bind at 1. rewrite Hstage. reflexivity.
Qed.

(** X11: a persistence fault that is not a [DatabaseException].  When the
    type-specific stage has returned and [update_order_status] raises any
    other exception, the exception leaves [_process_order] after the call was
    made; the order object already carries the stage's status and the new
    priority, and is not marked "db_error". *)
Theorem persistence_fault_escapes (user_id : Z) (o o1 : Order.t)
    (w w1 : World W) (e : exn) (e2 : W) :
  type_specific_stage user_id (o, w) = (Return tt, (o1, w1)) ->
  let pr := if decide (200 < Order.amount o)%num then "high" else "low" in
  update_order_status (Order.id o) (Order.status o1) pr (ext w1)
    = (Raise e, e2) ->
  e <> DatabaseException ->
  _process_order user_id (o, w) =
  (Raise e,
   (Order.set_priority pr o1,
    mkWorld e2 (files w1)
      (calls w1 ++ [CallUpdate (Order.id o) (Order.status o1) pr]))).
Proof.
  intros Hstage pr Hupd Hne.
  pose proof (frame_type_specific_stage user_id (o, w)) as Hframe.
  rewrite Hstage in Hframe. destruct Hframe as (Hid & _ & Ham & _).
  simpl in Hid, Ham.
  assert (Hpr : pr = priority_of (Order.amount o1)).
  { rewrite Ham. unfold pr, priority_of.
    destruct (decide (200 < Order.amount o)%num) as [H | H].
    - apply num_gt_spec in H. rewrite H. reflexivity.
    - apply num_gt_false in H. rewrite H. reflexivity. }
  rewrite (process_order_run user_id o o1 w w1 (Raise e) e2 Hstage);
    [| simpl; rewrite Hid, <- Hpr; exact Hupd].
  simpl. rewrite Hid, <- Hpr. destruct e; try reflexivity. congruence.
Qed.

(** X12: the three outcomes of a verified type-"B" order.  With a "success"
    response carrying the number [d], the stage returns with exactly one of
    "processed", "pending" and "error": "processed" exactly when [d >= 50]
    and [amount < 100]; "pending" exactly when that fails and [d < 50] or the
    flag is set; "error" exactly when both fail.  A payload below 50 gives
    "pending" whatever the amount and the flag.  For numbers other than
    [nan], "pending" is reached exactly when [d < 50], or [amount >= 100]
    with the flag set, and an amount below 100 never gives "error"; a [nan]
    payload with the flag not set gives "error" at any amount, and a [nan]
    amount never gives "processed". *)
Theorem type_b_outcomes (o : Order.t) (w : World W) (resp : APIResponse.t)
    (d : num) (e' : W) :
  call_api (Order.id o) (ext w) = (Return resp, e') ->
  APIResponse.status resp = "success" -> APIResponse.data resp = Some d ->
  exists st,
    _process_type_b_order (o, w) =
      (Return tt,
       (Order.set_status st o,
        mkWorld e' (files w) (calls w ++ [CallApi (Order.id o)]))) /\
    (st = "processed" \/ st = "pending" \/ st = "error") /\
    (st = "processed" <-> (50 <= d)%num /\ (Order.amount o < 100)%num) /\
    (st = "pending" <->
     ~ ((50 <= d)%num /\ (Order.amount o < 100)%num) /\
     ((d < 50)%num \/ Order.flag o = true)) /\
    (st = "error" <->
     ~ ((50 <= d)%num /\ (Order.amount o < 100)%num) /\
     ~ (d < 50)%num /\ Order.flag o = false) /\
    ((d < 50)%num -> st = "pending") /\
    (d <> NaN -> Order.amount o <> NaN ->
     (st = "pending" <->
      (d < 50)%num \/
      ((100 <= Order.amount o)%num /\ Order.flag o = true))) /\
    (d <> NaN -> (Order.amount o < 100)%num ->
     st = "processed" \/ st = "pending") /\
    (d = NaN -> Order.flag o = false -> st = "error") /\
    (Order.amount o = NaN -> st <> "processed").
Proof.
  intros Hcall Hsucc Hdata.
  rewrite (process_type_b_order_run o w _ e' Hcall).
  apply String.eqb_eq in Hsucc. rewrite Hsucc, Hdata.
  eexists. split; [reflexivity |].
  destruct (type_b_rule d (Order.amount o) (Order.flag o))
    as (Hprocessed & Hpending & Herror).
  set (st := if num_ge d 50 && num_lt (Order.amount o) 100 then "processed"
             else if num_lt d 50 || Order.flag o then "pending" else "error")
    in *.
  assert (H50 : (50 : num) <> NaN) by discriminate.
  assert (H100 : (100 : num) <> NaN) by discriminate.
  pose proof (lt_num_not_le d 50) as Hd1.
  pose proof (lt_num_not_le (Order.amount o) 100) as Ha1.
  assert (Hflag : Order.flag o = true \/ Order.flag o = false)
    by (destruct (Order.flag o); auto).
  assert (Hflag' : Order.flag o = true -> Order.flag o = false -> False)
    by congruence.
  assert (Hdec1 : (d < 50)%num \/ ~ (d < 50)%num)
    by (destruct (decide (d < 50)%num); auto).
  assert (Hdec2 : (Order.amount o < 100)%num \/ ~ (Order.amount o < 100)%num)
    by (destruct (decide (Order.amount o < 100)%num); auto).
  split.
  { subst st. destruct (num_ge d 50 && num_lt (Order.amount o) 100); auto.
    destruct (num_lt d 50 || Order.flag o); auto. }
  split; [exact Hprocessed |]. split; [exact Hpending |].
  split; [rewrite Herror; tauto |].
  split; [intros Hlt; apply Hpending; tauto |].
  split.
  { intros Hd Ha.
    pose proof (not_lt_num d 50 Hd H50) as Hd2.
    pose proof (not_lt_num (Order.amount o) 100 Ha H100) as Ha2.
    rewrite Hpending. tauto. }
  split.
  { intros Hd Hlt.
    pose proof (not_lt_num d 50 Hd H50) as Hd2.
    destruct Hdec1 as [Hsmall | Hbig].
    - right. apply Hpending. tauto.
    - left. apply Hprocessed. tauto. }
  split.
  { intros -> Hf. apply Herror. unfold lt_num, le_num. tauto. }
  intros Ha Hst. apply Hprocessed in Hst as [_ Hlt].
  rewrite Ha in Hlt. exact Hlt.
Qed.

(** X13: what an export leaves on disk.  However the export of an order
    ends, it has made no collaborator call and touched no file but its own;
    if opening the file failed, the file system is exactly as it was; else
    the file holds a prefix of the export's rows (header, data row, note
    row), no other content; and whenever the stage returns with status
    "exported", the file holds all of them. *)
Theorem export_file_is_a_prefix (user_id : Z) (o : Order.t) (w : World W)
    (t : Z) (e1 : W) :
  time_time (ext w) = (t, e1) ->
  let name :=
    "orders_type_A_" +:+ str_int user_id +:+ "_" +:+ str_int t +:+ ".csv" in
  let full := [csv_header; csv_data o] ++
              (if decide (150 < Order.amount o)%num then [csv_note] else []) in
  let run := _process_type_a_order user_id (o, w) in
  let w' := snd (snd run) in
  calls w' = calls w /\ ext w' = e1 /\
  (forall other, other <> name -> files w' !! other = files w !! other) /\
  (io_fault (OpOpen name) e1 <> None -> files w' = files w) /\
  (io_fault (OpOpen name) e1 = None ->
   exists rows, files w' !! name = Some rows /\ rows `prefix_of` full) /\
  (fst run = Return tt -> Order.status (fst (snd run)) = "exported" ->
   files w' !! name = Some full).
Proof.
  intros Htime name full run w'. subst run w'.
  assert (Hfull : full = export_rows o).
  { unfold full, export_rows. destruct (decide (150 < Order.amount o)%num) as [H | H].
    - apply num_gt_spec in H. rewrite H. reflexivity.
    - apply num_gt_false in H. rewrite H. reflexivity. }
  rewrite Hfull. change name with (csv_name user_id t).
  destruct (process_type_a_order_world user_id o w t e1 Htime)
    as (r & st & fs & -> & Hst & Hother & Hopen).
  simpl. split; [reflexivity |]. split; [reflexivity |].
  split; [exact Hother |]. split; [| split].
  - intros Hfail. destruct Hopen as [(_ & -> & _) | (Hok & _)]; [reflexivity |].
    contradiction.
  - intros Hok. destruct Hopen as [(Hfail & _) | (_ & rows & Hrows & Hpre & _)].
    + contradiction.
    + exists rows. auto.
  - intros -> Hexp.
    destruct Hopen as [(_ & _ & Hfailed) | (_ & rows & Hrows & _ & Hall)].
    + rewrite (Hfailed eq_refl) in Hexp. discriminate Hexp.
    + rewrite Hrows, (Hall eq_refl Hexp). reflexivity.
Qed.


(** X14: the pipeline does not read the incoming status or priority.  For
    an order of any type but "A" (whose export writes both into the file),
    running the pipeline from the same world on the same order with another
    status and priority gives the same outcome and the same world, and, when
    it returns, the same final order: processing an already processed order
    again, with the collaborators answering as before, changes nothing. *)
Theorem pipeline_ignores_incoming_status (user_id : Z) (o : Order.t)
    (w : World W) (st pr : string) :
  Order.type o <> "A" ->
  let o2 := Order.mk (Order.id o) (Order.type o) (Order.amount o)
              (Order.flag o) st pr in
  let run := _process_order user_id (o, w) in
  let run2 := _process_order user_id (o2, w) in
  fst run2 = fst run /\ snd (snd run2) = snd (snd run) /\
  (fst run = Return tt -> fst (snd run2) = fst (snd run)).
Proof.
  intros HA o2 run run2. subst run run2.
  apply String.eqb_neq in HA.
  destruct (type_specific_stage_world user_id o w)
    as (r & st1 & w1 & Hstage & _ & Hst & _).
  assert (Hstage2 : type_specific_stage user_id (o2, w) =
            (r, (match r with
                 | Return _ => Order.set_status st1 o2
                 | Raise _ => o2
                 end, w1))).
  { revert Hstage. unfold type_specific_stage, bind, get_order. simpl.
    rewrite HA. destruct (String.eqb (Order.type o) "B").
    - destruct (call_api (Order.id o) (ext w)) as [ra e'] eqn:Hcall.
      rewrite (process_type_b_order_run o w ra e' Hcall).
      rewrite (process_type_b_order_run o2 w ra e' Hcall).
      destruct ra as [resp | e].
      + destruct (String.eqb (APIResponse.status resp) "success");
          [destruct (APIResponse.data resp) |];
          intros Heq; inversion Heq; subst; reflexivity.
      + destruct (is_APIException e);
          intros Heq; inversion Heq; subst; reflexivity.
    - destruct (String.eqb (Order.type o) "C").
      + rewrite !process_type_c_order_run.
        intros Heq; inversion Heq; subst; reflexivity.
      + unfold set_status. simpl.
        intros Heq; inversion Heq; subst; reflexivity. }
  rewrite process_order_stages.
  destruct Hst as [(-> & _) | ((e & ->) & _)].
  - rewrite (bind_Return _ _ _ _ _ Hstage), (bind_Return _ _ _ _ _ Hstage2).
    rewrite !(bind_Return _ _ _ _ _ (set_order_priority_run _ w1)).
    auto.
  - unfold bind. rewrite Hstage, Hstage2. simpl. split; [reflexivity |].
    split; [reflexivity | discriminate].
Qed.

(** X15: priorities of a completed batch.  When [process_orders] returns
    [True], the returned orders are the fetched ones, position by position,
    with id, type, amount and flag as fetched and the priority tier of their
    amount: "high" exactly when the amount is above 200, "low" otherwise;
    for an amount that is a number, "low" exactly when it is at most 200;
    an amount that is not a number gets "low". *)
Theorem completed_batch_priorities (user_id : Z) (w w' : World W)
    (fetched : Fetched) (orders' : list Order.t) (e1 : W) :
  get_orders_by_user user_id (ext w) = (Return fetched, e1) ->
  process_orders user_id w = (true, orders', w') ->
  let orders := fetched_orders fetched in
  Forall2 (fun o o' =>
             Order.id o' = Order.id o /\ Order.type o' = Order.type o /\
             Order.amount o' = Order.amount o /\ Order.flag o' = Order.flag o /\
             (Order.priority o' = "high" <-> (200 < Order.amount o)%num) /\
             (Order.priority o' = "low" <-> ~ (200 < Order.amount o)%num) /\
             (Order.amount o <> NaN ->
              (Order.priority o' = "low" <-> (Order.amount o <= 200)%num)) /\
             (Order.amount o = NaN -> Order.priority o' = "low"))
    orders orders'.
Proof.
  intros Hfetch Hrun orders. subst orders.
  assert (Hne : fetched_orders fetched <> []).
  { intros Hnil. apply fetched_orders_nil in Hnil.
    unfold process_orders, db_get_orders_by_user in Hrun.
    rewrite Hfetch, Hnil in Hrun. discriminate Hrun. }
  rewrite (process_orders_fetched _ _ _ _ Hfetch Hne) in Hrun.
  destruct (for_order_in (listed fetched) user_id _ _)
    as [[[[] | e] os] w2] eqn:Hloop; [| discriminate Hrun].
  injection Hrun as <- <-.
  apply for_order_in_returned in Hloop as (_ & Hframe & _).
  eapply Forall2_impl; [exact Hframe |]. simpl.
  intros a a' ((Hid & Hty & Ham & Hfl) & Hprio).
  assert (Hle : Order.amount a <> NaN ->
                (~ (200 < Order.amount a)%num <-> (Order.amount a <= 200)%num)).
  { intros Hnan. apply not_lt_num; [discriminate | exact Hnan]. }
  assert (Hnan : Order.amount a = NaN -> ~ (200 < Order.amount a)%num).
  { intros -> Hlt. exact Hlt. }
  rewrite Hprio. unfold priority_of.
  do 4 (split; [assumption |]).
  destruct (num_gt (Order.amount a) 200) eqn:Hgt.
  - apply num_gt_spec in Hgt.
    split; [tauto |]. split; [split; [discriminate | tauto] |].
    split.
    + intros Hn. specialize (Hle Hn). split; [discriminate | tauto].
    + intros Hn. destruct (Hnan Hn Hgt).
  - apply num_gt_false in Hgt.
    split; [split; [discriminate | tauto] |]. split; [tauto |].
    split.
    + intros Hn. specialize (Hle Hn). tauto.
    + reflexivity.
Qed.

End Faults_and_edges.

(** ** The further properties on concrete scenarios *)

(** A type-"C" order with the flag set and amount 250. *)
Lemma type_c_pipeline_witness :
  let o := Order.init 3 "C" 250 true in
  let sc := sc_single o (success (Some 50%num)) (Return true) no_io_fault in
  _process_order 1 (o, fresh sc) =
  (Return tt,
   (Order.mk 3 "C" 250 true "completed" "high",
    mkWorld sc ∅ [CallUpdate 3 "completed" "high"])).
Proof.
  intros o sc.
  assert (Hupd : update_order_status (Order.id o) "completed" "high"
                   (ext (fresh sc)) = (Return true, sc)) by reflexivity.
  exact (type_c_pipeline 1 o (fresh sc) (Return true) sc
           (eq_refl "C") Hupd).
Defined.

(** An order of type "X". *)
Lemma unknown_type_pipeline_witness :
  let o := Order.init 4 "X" 50 false in
  let sc := sc_single o (success (Some 50%num)) (Return true) no_io_fault in
  _process_order 1 (o, fresh sc) =
  (Return tt,
   (Order.mk 4 "X" 50 false "unknown_type" "low",
    mkWorld sc ∅ [CallUpdate 4 "unknown_type" "low"])).
Proof.
  intros o sc.
  assert (Hupd : update_order_status (Order.id o) "unknown_type" "low"
                   (ext (fresh sc)) = (Return true, sc)) by reflexivity.
  apply (unknown_type_pipeline 1 o (fresh sc) (Return true) sc);
    [discriminate | discriminate | discriminate | exact Hupd].
Defined.

(** Everything out of service: the one type-"B" order of the batch, id 2,
    is the one the remote service was called for. *)
Lemma completed_batch_remote_calls_witness :
  api_ids (calls (snd (process_orders 1 all_down))) = [2].
Proof.
  assert (Hfetch : get_orders_by_user 1 (ext all_down)
                   = (Return (distinct outage_batch), ext all_down))
    by reflexivity.
  assert (Hrun : process_orders 1 all_down =
                 (true, snd (fst (process_orders 1 all_down)),
                  snd (process_orders 1 all_down)))
    by (vm_compute; reflexivity).
  rewrite (completed_batch_remote_calls 1 all_down _ (distinct outage_batch) _
             (ext all_down) Hfetch Hrun).
  reflexivity.
Defined.

(** Everything out of service: the batch completes, and only the first
    order, of amount 250, gets "high". *)
Lemma completed_batch_priorities_witness :
  Forall2 (fun o o' =>
             Order.id o' = Order.id o /\ Order.type o' = Order.type o /\
             Order.amount o' = Order.amount o /\ Order.flag o' = Order.flag o /\
             (Order.priority o' = "high" <-> (200 < Order.amount o)%num) /\
             (Order.priority o' = "low" <-> ~ (200 < Order.amount o)%num) /\
             (Order.amount o <> NaN ->
              (Order.priority o' = "low" <-> (Order.amount o <= 200)%num)) /\
             (Order.amount o = NaN -> Order.priority o' = "low"))
    (fetched_orders (distinct outage_batch))
    (snd (fst (process_orders 1 all_down))).
Proof.
  assert (Hfetch : get_orders_by_user 1 (ext all_down)
                   = (Return (distinct outage_batch), ext all_down))
    by reflexivity.
  assert (Hrun : process_orders 1 all_down =
                 (true, snd (fst (process_orders 1 all_down)),
                  snd (process_orders 1 all_down)))
    by (vm_compute; reflexivity).
  exact (completed_batch_priorities 1 all_down _ (distinct outage_batch) _
           (ext all_down) Hfetch Hrun).
Defined.


Lemma csv_name_inj_witness : 7 = 7 /\ 1700000000 = 1700000000.
Proof.
  exact (csv_name_inj 7 7 1700000000 1700000000
           (eq_refl "orders_type_A_7_1700000000.csv")).
Defined.

(** A type-"B" order, "success" without payload. *)
Lemma type_b_fault_escapes_witness :
  let o := Order.init 1 "B" 50 false in
  let sc := sc_single o (success None) (Return true) no_io_fault in
  _process_order 1 (o, fresh sc) =
  (Raise TypeError, (o, mkWorld sc ∅ [CallApi 1])).
Proof.
  intros o sc.
  assert (Hcall : call_api (Order.id o) (ext (fresh sc)) = (success None, sc))
    by reflexivity.
  apply (type_b_fault_escapes 1 o (fresh sc) (success None) sc TypeError
           (eq_refl "B") Hcall).
  right. split; [reflexivity |].
  exists (APIResponse.mk "success" None). repeat split.
Defined.

(** A type-"C" order whose persistence raises an unclassified exception. *)
Lemma persistence_fault_escapes_witness :
  let o := Order.init 3 "C" 250 true in
  let sc := sc_single o (success (Some 50%num)) (Raise OtherException)
              no_io_fault in
  _process_order 1 (o, fresh sc) =
  (Raise OtherException,
   (Order.mk 3 "C" 250 true "completed" "high",
    mkWorld sc ∅ [CallUpdate 3 "completed" "high"])).
Proof.
  intros o sc.
  assert (Hstage : type_specific_stage 1 (o, fresh sc) =
                   (Return tt, (Order.set_status "completed" o, fresh sc)))
    by reflexivity.
  assert (Hupd : update_order_status (Order.id o) "completed" "high"
                   (ext (fresh sc)) = (Raise OtherException, sc))
    by reflexivity.
  apply (persistence_fault_escapes 1 o _ (fresh sc) (fresh sc)
           OtherException sc Hstage Hupd).
  discriminate.
Defined.

(** Payload 60, amount 50: "processed". *)
Lemma type_b_outcomes_witness :
  let o := Order.init 1 "B" 50 false in
  let sc := sc_single o (success (Some 60%num)) (Return true) no_io_fault in
  _process_type_b_order (o, fresh sc) =
  (Return tt, (Order.set_status "processed" o, mkWorld sc ∅ [CallApi 1])).
Proof.
  intros o sc.
  assert (Hcall : call_api (Order.id o) (ext (fresh sc))
                  = (Return (APIResponse.mk "success" (Some 60%num)), sc))
    by reflexivity.
  destruct (type_b_outcomes o (fresh sc) _ 60%num sc Hcall eq_refl eq_refl)
    as (st & Hrun & _ & Hprocessed & _).
  assert (Hst : st = "processed").
  { apply Hprocessed. split; vm_compute; congruence. }
  rewrite Hrun, Hst. reflexivity.
Defined.

(** [open] fails: the file system is as it was. *)
Lemma export_file_is_a_prefix_witness :
  let o := Order.init 1 "A" 200 false in
  let sc := sc_single o (success (Some 50%num)) (Return true) open_fails in
  files (snd (snd (_process_type_a_order 1 (o, fresh sc)))) = ∅.
Proof.
  intros o sc.
  assert (Htime : time_time (ext (fresh sc)) = (1700000000, sc)) by reflexivity.
  destruct (export_file_is_a_prefix 1 o (fresh sc) 1700000000 sc Htime)
    as (_ & _ & _ & Hfail & _).
  apply Hfail. discriminate.
Defined.

(** A type-"C" order processed a second time. *)
Lemma pipeline_ignores_incoming_status_witness :
  let o := Order.init 3 "C" 250 true in
  let sc := sc_single o (success (Some 50%num)) (Return true) no_io_fault in
  fst (snd (_process_order 1
              (Order.mk 3 "C" 250 true "completed" "high", fresh sc))) =
  fst (snd (_process_order 1 (o, fresh sc))).
Proof.
  intros o sc.
  destruct (pipeline_ignores_incoming_status 1 o (fresh sc)
              "completed" "high")
    as (_ & _ & Hsame); [discriminate |].
  apply Hsame. reflexivity.
Defined.
